(** * Topic evolution page (src/app.js): a shallow embedding in Rocq

    The embedding covers the data loader [loadTopicData], the chart builders
    [createChartTraces] and [createDynamicAnnotations], the debounced resize
    handler installed by [renderChart], and a heap model of the two builders
    used for their frame and purity properties. *)

From Stdlib Require Import ZArith List String Ascii Bool Lia.
From Stdlib Require Import Sorting.Permutation Sorting.Sorted.
From stdpp Require Import base list gmap strings.

Import ListNotations.
Set Warnings "-register-all".
Open Scope string_scope.
Open Scope Z_scope.

(* ================================================================= *)
(** ** JavaScript values and the few built-in operations the code uses *)

Module JS.

(** JavaScript values as the program sees them.  [JSON.parse] produces
    only [JNull], [JBool], [JNum], [JStr], [JArr] and [JObj]; [JUndef]
    and [JBuiltin] (a built-in function or prototype object, named) appear
    as results of property lookups.  Numbers are restricted to integers:
    the dataset holds counts and years. *)
Inductive jvalue :=
| JUndef
| JNull
| JBool (b : bool)
| JNum (z : Z)
| JStr (s : string)
| JArr (vs : list jvalue)
| JObj (ps : list (string * jvalue))
| JBuiltin (name : string).

(** Truthiness ([ToBoolean]). *)
Definition truthy (v : jvalue) : bool :=
  match v with
  | JUndef | JNull => false
  | JBool b => b
  | JNum z => negb (z =? 0)
  | JStr s => negb (String.eqb s "")
  | JArr _ | JObj _ | JBuiltin _ => true
  end.

(** Value of a decimal digit. *)
Definition digit_val (c : ascii) : option Z :=
  let n := nat_of_ascii c in
  if (48 <=? n)%nat && (n <=? 57)%nat then Some (Z.of_nat (n - 48)) else None.

Fixpoint decimal_value (s : string) (acc : Z) : option Z :=
  match s with
  | EmptyString => Some acc
  | String c r =>
      match digit_val c with
      | Some d => decimal_value r (acc * 10 + d)
      | None => None
      end
  end.

(** A property key is an array index when it is the canonical decimal
    form of an integer below 2^32 - 1. *)
Definition array_index (s : string) : option Z :=
  match s with
  | EmptyString => None
  | String c rest =>
      if Ascii.eqb c "0"%char
      then match rest with EmptyString => Some 0 | _ => None end
      else match decimal_value s 0 with
           | Some v => if v <? 4294967295 then Some v else None
           | None => None
           end
  end.

Definition is_array_index (s : string) : bool :=
  match array_index s with Some _ => true | None => false end.

Definition index_key (s : string) : Z :=
  match array_index s with Some v => v | None => 0 end.

(** Decimal rendering of a natural number (array keys "0", "1", ...). *)
Fixpoint nat_to_string_aux (fuel n : nat) (acc : string) : string :=
  match fuel with
  | O => acc
  | S f =>
      let acc' := String (ascii_of_nat (48 + n mod 10)) acc in
      if (n <? 10)%nat then acc' else nat_to_string_aux f (n / 10) acc'
  end.

Definition nat_to_string (n : nat) : string := nat_to_string_aux (S n) n "".

(** [Array.prototype.sort] with a comparator.  The sort is stable
    (ECMAScript 2019 on); for a consistent comparator its result is the
    one of this insertion sort: an element goes before the first element
    it compares strictly below. *)
Fixpoint insert_by {A} (cmp : A -> A -> Z) (x : A) (l : list A) : list A :=
  match l with
  | [] => [x]
  | y :: ys => if cmp x y <? 0 then x :: y :: ys else y :: insert_by cmp x ys
  end.

Definition sort_by {A} (cmp : A -> A -> Z) (l : list A) : list A :=
  fold_left (fun acc x => insert_by cmp x acc) l [].

(** Own string-keyed properties of an ordinary object, in the order of
    [OrdinaryOwnPropertyKeys]: array-index keys in ascending numeric
    order, then the other keys in creation order.  The association list
    holds the properties in creation order. *)
Definition own_keys_order {A} (ps : list (string * A)) : list (string * A) :=
  sort_by (fun a b => index_key (fst a) - index_key (fst b))
          (List.filter (fun p => is_array_index (fst p)) ps)
  ++ List.filter (fun p => negb (is_array_index (fst p))) ps.

(** Own property of an object (keys are unique). *)
Definition own_get {A} (ps : list (string * A)) (k : string) : option A :=
  match find (fun p => String.eqb (fst p) k) ps with
  | Some (_, v) => Some v
  | None => None
  end.

Inductive proto := ObjectProto | ArrayProto | StringProto | NumberProto
                 | BooleanProto | FunctionProto.

Definition object_proto_names : list string :=
  ["constructor"; "__defineGetter__"; "__defineSetter__"; "hasOwnProperty";
   "__lookupGetter__"; "__lookupSetter__"; "isPrototypeOf";
   "propertyIsEnumerable"; "toString"; "valueOf"; "__proto__";
   "toLocaleString"].

Definition array_proto_names : list string :=
  ["at"; "concat"; "copyWithin"; "entries"; "every"; "fill"; "filter";
   "find"; "findIndex"; "findLast"; "findLastIndex"; "flat"; "flatMap";
   "forEach"; "includes"; "indexOf"; "join"; "keys"; "lastIndexOf"; "map";
   "pop"; "push"; "reduce"; "reduceRight"; "reverse"; "shift"; "slice";
   "some"; "sort"; "splice"; "toReversed"; "toSorted"; "toSpliced";
   "unshift"; "values"; "with"].

Definition string_proto_names : list string :=
  ["at"; "charAt"; "charCodeAt"; "codePointAt"; "concat"; "endsWith";
   "includes"; "indexOf"; "isWellFormed"; "lastIndexOf"; "localeCompare";
   "match"; "matchAll"; "normalize"; "padEnd"; "padStart"; "repeat";
   "replace"; "replaceAll"; "search"; "slice"; "split"; "startsWith";
   "substring"; "substr"; "toLocaleLowerCase"; "toLocaleUpperCase";
   "toLowerCase"; "toUpperCase"; "toWellFormed"; "trim"; "trimStart";
   "trimEnd"; "trimLeft"; "trimRight"; "anchor"; "big"; "blink"; "bold";
   "fixed"; "fontcolor"; "fontsize"; "italics"; "link"; "small"; "strike";
   "sub"; "sup"].

Definition number_proto_names : list string :=
  ["toExponential"; "toFixed"; "toPrecision"].

Definition function_proto_names : list string :=
  ["apply"; "bind"; "call"; "length"; "name"].

(** String keys found along the prototype chain (ending in
    [Object.prototype]). *)
Definition proto_names (p : proto) : list string :=
  match p with
  | ObjectProto => object_proto_names
  | ArrayProto => array_proto_names ++ object_proto_names
  | StringProto => string_proto_names ++ object_proto_names
  | NumberProto => number_proto_names ++ object_proto_names
  | BooleanProto => object_proto_names
  | FunctionProto => function_proto_names ++ object_proto_names
  end.

Definition proto_get (p : proto) (k : string) : option jvalue :=
  if existsb (String.eqb k) (proto_names p) then Some (JBuiltin k) else None.

(** Property lookup [v[k]] on a non-nullish value; [None] is
    [undefined].  ([null[k]] and [undefined[k]] throw a TypeError; the
    callers test for them first.)  Strings are indexed by byte. *)
Definition js_get (v : jvalue) (k : string) : option jvalue :=
  match v with
  | JObj ps =>
      match own_get ps k with
      | Some x => Some x
      | None => proto_get ObjectProto k
      end
  | JArr vs =>
      match array_index k with
      | Some i => nth_error vs (Z.to_nat i)
      | None =>
          if String.eqb k "length" then Some (JNum (Z.of_nat (length vs)))
          else proto_get ArrayProto k
      end
  | JStr s =>
      match array_index k with
      | Some i => option_map (fun c => JStr (String c EmptyString))
                             (String.get (Z.to_nat i) s)
      | None =>
          if String.eqb k "length" then Some (JNum (Z.of_nat (String.length s)))
          else proto_get StringProto k
      end
  | JNum _ => proto_get NumberProto k
  | JBool _ => proto_get BooleanProto k
  | JBuiltin _ => proto_get FunctionProto k
  | JUndef | JNull => None
  end.

Definition nullish (v : jvalue) : bool :=
  match v with JUndef | JNull => true | _ => false end.

(** [Object.entries(v)] for a non-nullish [v]. *)
Fixpoint string_entries (i : nat) (s : string) : list (string * jvalue) :=
  match s with
  | EmptyString => []
  | String c r => (nat_to_string i, JStr (String c EmptyString))
                    :: string_entries (S i) r
  end.

Definition object_entries (v : jvalue) : list (string * jvalue) :=
  match v with
  | JObj ps => own_keys_order ps
  | JArr vs => imap (fun i x => (nat_to_string i, x)) vs
  | JStr s => string_entries 0 s
  | _ => []
  end.

(** [Array.isArray]. *)
Definition is_array (v : jvalue) : bool :=
  match v with JArr _ => true | _ => false end.

End JS.

Import JS.

(* ================================================================= *)
(** ** The chart builders, [createChartTraces] and [createDynamicAnnotations] *)

Module Builders.

(** A dataset as the builders read it: [years], [categories] (an object
    whose properties, in creation order, map a category name to its
    counts) and the optional [markers] field ([None] when absent). *)
Record Dataset := mkDataset {
  years : list Z;
  categories : list (string * list Z);
  markers : option jvalue
}.

(** [CHART_CONFIG.colors]. *)
Definition colors : list string :=
  ["#FF6B6B"; "#4ECDC4"; "#45B7D1"; "#96CEB4"; "#FFEAA7";
   "#DDA0DD"; "#98D8C8"; "#F7DC6F"; "#FF9FF3"; "#54A0FF";
   "#5F27CD"; "#00D2D3"; "#FF9F43"; "#10AC84"; "#EE5A24";
   "#0AD3C4"; "#FFC312"; "#C4E538"; "#F79F1F"; "#A3CB38"].

(** The objects [{ name, values, total }] built by the [map] call. *)
Record CategoryTotal := mkCategoryTotal {
  ct_name : string;
  ct_values : list Z;
  ct_total : Z
}.

(** [values.reduce((sum, val) => sum + val, 0)]. *)
Definition sum_values (values : list Z) : Z :=
  fold_left (fun sum val => sum + val) values 0.

(** [Object.entries(data.categories).map(...).sort((a, b) => b.total - a.total)]. *)
Definition category_totals (data : Dataset) : list CategoryTotal :=
  sort_by (fun a b => ct_total b - ct_total a)
    (map (fun '(name, values) => mkCategoryTotal name values (sum_values values))
         (own_keys_order (categories data))).

(** The varying part of a trace object; the constant fields ([mode],
    [type], widths, [hovertemplate], ...) are written out in
    [HeapModel.trace_json]. *)
Record Trace := mkTrace {
  tr_x : list Z;
  tr_y : list Z;
  tr_name : string;
  tr_color : string;
  tr_symbol : jvalue
}.

(** [CHART_CONFIG.colors[colorIndex % CHART_CONFIG.colors.length]]. *)
Definition color_at (colorIndex : nat) : string :=
  nth (colorIndex mod length colors) colors "".

(** [data.markers && data.markers[name] ? data.markers[name] : 'circle']. *)
Definition marker_symbol (data : Dataset) (name : string) : jvalue :=
  match markers data with
  | Some m =>
      if truthy m then
        match js_get m name with
        | Some s => if truthy s then s else JStr "circle"
        | None => JStr "circle"
        end
      else JStr "circle"
  | None => JStr "circle"
  end.

(** The [forEach] loop, with [colorIndex] threaded through. *)
Fixpoint build_traces (data : Dataset) (colorIndex : nat)
    (cts : list CategoryTotal) : list Trace :=
  match cts with
  | [] => []
  | ct :: rest =>
      mkTrace (years data) (ct_values ct) (ct_name ct) (color_at colorIndex)
              (marker_symbol data (ct_name ct))
        :: build_traces data (S colorIndex) rest
  end.

Definition createChartTraces (data : Dataset) : list Trace :=
  build_traces data 0 (category_totals data).

(** The varying part of an annotation object. *)
Record Annotation := mkAnnotation {
  an_x : Z;
  an_y : Z;
  an_text : string;
  an_color : string
}.

(** [data.years.indexOf(year)]. *)
Fixpoint index_of (y : Z) (l : list Z) : Z :=
  match l with
  | [] => -1
  | x :: r => if x =? y then 0 else
                let i := index_of y r in if i <? 0 then -1 else i + 1
  end.

(** [getCategoryValue]; [None] is [undefined] (an index past the end of
    the category's array, or an inherited member of [Object.prototype],
    which has no index properties). *)
Definition getCategoryValue (data : Dataset) (categoryName : string) (year : Z)
    : option Z :=
  match own_get (categories data) categoryName with
  | Some values =>
      let yearIndex := index_of year (years data) in
      if yearIndex >=? 0 then nth_error values (Z.to_nat yearIndex) else Some 0
  | None =>
      if existsb (String.eqb categoryName) object_proto_names then
        let yearIndex := index_of year (years data) in
        if yearIndex >=? 0 then None else Some 0
      else Some 0
  end.

(** [value > 0]; [undefined > 0] is false. *)
Definition positive_value (v : option Z) : bool :=
  match v with Some z => 0 <? z | None => false end.

(** [if (value > 0) annotations.push({ x: year, y: value, text, ... })]. *)
Definition push_if (value : option Z) (year : Z) (text color : string)
    (annotations : list Annotation) : list Annotation :=
  match value with
  | Some z => if 0 <? z then annotations ++ [mkAnnotation year z text color]
              else annotations
  | None => annotations
  end.

Definition createDynamicAnnotations (data : Dataset) : list Annotation :=
  let annotations := [] in
  let mlValue2024 := getCategoryValue data "Machine Learning & AI" 2024 in
  let annotations := push_if mlValue2024 2024 "LLMs<br>Emerge" "#FF6B6B" annotations in
  let socialValue2019 := getCategoryValue data "Social Sciences & Demographics" 2019 in
  let annotations := push_if socialValue2019 2019 "Census<br>Focus" "#ed8936" annotations in
  let covidValue2020 := getCategoryValue data "Pandemic & Public Health" 2020 in
  let annotations := push_if covidValue2020 2020 "COVID-19<br>Impact" "#48bb78" annotations in
  annotations.

End Builders.

Import Builders.

(* ================================================================= *)
(** ** The loader, [loadTopicData] *)

Module Loader.

(** What [fetch('data.json')] resolves to: a rejected fetch, or a
    response with its [ok] flag, [status], [statusText] and the result of
    [response.json()] ([None] when the body is not valid JSON). *)
Inductive fetch_outcome :=
| FetchRejected
| FetchResponse (ok : bool) (status : Z) (statusText : string) (body : option jvalue).

(** The errors thrown inside the [try] block, one per [throw] site or
    failing built-in. *)
Inductive load_error :=
| EFetch                         (* fetch rejected (network failure) *)
| EHttp (status : Z) (text : string)   (* `HTTP ${status}: ${statusText}` *)
| EFormat                        (* response.json() rejects: SyntaxError *)
| ESchema                        (* 'Invalid data format: missing required fields' *)
| EConsistency (category : string)   (* `Data inconsistency in category: ${category}` *)
| ETypeError.                    (* reading a property of null *)

Definition load_error_eq_dec (x y : load_error) : {x = y} + {x <> y}.
Proof. decide equality; first [apply string_dec | apply Z.eq_dec]. Defined.

(** The global [AppState]. *)
Record AppState := mkAppState {
  data : option jvalue;
  isLoading : bool;
  error : option load_error;
  chartInstance : bool
}.

(** The content of the [evolution-chart] element. *)
Inductive view := VInitial | VLoading | VError (e : load_error) | VChart.

Record World := mkWorld { app : AppState; chart_view : view }.

Definition initialWorld : World :=
  mkWorld (mkAppState None true None false) VInitial.

(** [v.k], with [undefined] as [JUndef]. *)
Definition prop (v : jvalue) (k : string) : jvalue :=
  match js_get v k with Some x => x | None => JUndef end.

Definition array_length (v : jvalue) : nat :=
  match v with JArr vs => length vs | _ => 0 end.

(** The consistency loop: the first category whose value is not an array
    or has the wrong length. *)
Fixpoint first_inconsistent (expectedLength : nat)
    (entries : list (string * jvalue)) : option string :=
  match entries with
  | [] => None
  | (category, values) :: rest =>
      if negb (is_array values) || negb (Nat.eqb (array_length values) expectedLength)
      then Some category
      else first_inconsistent expectedLength rest
  end.

(** The body of the [try] block, from the fetch outcome to the value
    returned or the error thrown. *)
Definition load_body (r : fetch_outcome) : jvalue + load_error :=
  match r with
  | FetchRejected => inr EFetch
  | FetchResponse ok status statusText body =>
      if negb ok then inr (EHttp status statusText) else
      match body with
      | None => inr EFormat
      | Some data =>
          if nullish data then inr ETypeError else
          if negb (truthy (prop data "years")) || negb (truthy (prop data "categories"))
             || negb (is_array (prop data "years"))
          then inr ESchema
          else
            let expectedLength := array_length (prop data "years") in
            match first_inconsistent expectedLength
                    (object_entries (prop data "categories")) with
            | Some category => inr (EConsistency category)
            | None => inl data
            end
      end
  end.

(** [loadTopicData]: shows the loading state, runs the body, and either
    stores the data or records the error and shows it. *)
Definition loadTopicData (r : fetch_outcome) (w : World) : option jvalue * World :=
  let w := mkWorld (app w) VLoading in
  match load_body r with
  | inl d =>
      (Some d, mkWorld (mkAppState (Some d) false None (chartInstance (app w))) (chart_view w))
  | inr e =>
      (None, mkWorld (mkAppState (data (app w)) false (Some e) (chartInstance (app w)))
                     (VError e))
  end.

(** The data model of the specification (its section 3), as a check on a
    loaded value: [years] a non-empty strictly increasing array of
    integers, [categories] an object whose values are arrays of
    non-negative integers of the length of [years]. *)
Fixpoint strictly_increasing (l : list Z) : bool :=
  match l with
  | x :: (y :: _) as r => (x <? y) && strictly_increasing r
  | _ => true
  end.

Definition num_list (vs : list jvalue) : option (list Z) :=
  fold_right (fun v acc => match v, acc with
                           | JNum z, Some l => Some (z :: l)
                           | _, _ => None
                           end) (Some []) vs.

Definition spec_dataset_ok (d : jvalue) : bool :=
  match prop d "years", prop d "categories" with
  | JArr ys, JObj cats =>
      match num_list ys with
      | Some yrs =>
          negb (Nat.eqb (length yrs) 0) && strictly_increasing yrs &&
          forallb (fun '(_, v) =>
                     match v with
                     | JArr vs =>
                         match num_list vs with
                         | Some counts => Nat.eqb (length counts) (length yrs)
                                          && forallb (fun z => 0 <=? z) counts
                         | None => false
                         end
                     | _ => false
                     end) cats
      | None => false
      end
  | _, _ => false
  end.

End Loader.

Import Loader.

(* ================================================================= *)
(** ** [renderChart] and the debounced resize listener *)

Module Resize.

(** Calls into the charting library. *)
Inductive render_call :=
| NewPlot (traces : list Trace) (annotations : list Annotation)
| PlotsResize (elementId : string).

(** The state the resize path touches: the clock, the timer held by the
    [debounce] closure ([timeout], kept as its due time), whether the
    [resize] listener is installed, [AppState.chartInstance], and the
    calls made to the charting library so far. *)
Record RState := mkRState {
  now : Z;
  timeout : option Z;
  listening : bool;
  chart : bool;
  calls : list render_call
}.

(** The debounce wait passed by [renderChart]. *)
Definition wait : Z := 250.

(** [renderChart(data)] when [Plotly.newPlot] succeeds: builds the traces
    and the layout (whose [annotations] come from
    [createDynamicAnnotations]), plots them, stores the chart instance and
    installs the debounced [resize] listener.  The listener is kept as one
    flag with one timer: a second call in the source adds a second
    listener with a timer of its own, so the statements that count resize
    calls start from a state with no listener ([listening s = false]). *)
Definition renderChart (d : Dataset) (s : RState) : RState :=
  mkRState (now s) (timeout s) true true
           (calls s ++ [NewPlot (createChartTraces d) (createDynamicAnnotations d)]).

(** The callback given to [debounce]:
    [if (AppState.chartInstance) Plotly.Plots.resize('evolution-chart')]. *)
Definition resize_callback (s : RState) : RState :=
  if chart s then mkRState (now s) (timeout s) (listening s) (chart s)
                           (calls s ++ [PlotsResize "evolution-chart"])
  else s.

(** Time passes up to [t]: the pending timer fires if it is due
    ([later] clears the timer and runs the callback). *)
Definition advance (t : Z) (s : RState) : RState :=
  match timeout s with
  | Some due =>
      if due <=? t
      then resize_callback (mkRState t None (listening s) (chart s) (calls s))
      else mkRState t (timeout s) (listening s) (chart s) (calls s)
  | None => mkRState t None (listening s) (chart s) (calls s)
  end.

(** A [resize] event at time [t]: [executedFunction] clears the pending
    timer and sets a new one, due [wait] later. *)
Definition on_resize (t : Z) (s : RState) : RState :=
  let s := advance t s in
  if listening s then mkRState (now s) (Some (t + wait)) (listening s) (chart s) (calls s)
  else s.

Definition run_events (ts : list Z) (s : RState) : RState :=
  fold_left (fun s t => on_resize t s) ts s.

(** A burst: events in time order, each less than [wait] after the
    previous one. *)
Fixpoint burst (first : Z) (ts : list Z) : bool :=
  match ts with
  | [] => true
  | t :: r => (first <=? t) && (t <? first + wait) && burst t r
  end.

End Resize.

Import Resize.

(* ================================================================= *)
(** ** A heap model of the two builders *)

(** The builders run on the JavaScript heap: the dataset is a graph of
    objects and arrays, [Object.entries], [map] and the object literals
    allocate, [sort] and [push] update arrays in place, and the traces
    keep references to the dataset's arrays ([x: data.years],
    [y: values]).  The monad is state passing over the heap with an
    exception. *)
Module HeapModel.

Definition loc := positive.

Inductive hval :=
| HUndef
| HNull
| HBool (b : bool)
| HNum (z : Z)
| HStr (s : string)
| HBuiltin (name : string)
| HRef (l : loc).

Inductive hobj :=
| HArr (vs : list hval)
| HObj (ps : list (string * hval)).

Abbreviation heap := (gmap loc hobj).

(** [TypeError] is thrown by the program; [Unmodelled] marks a path that
    needs JavaScript coercions left out of this model ([+] on a
    non-number, [>] on a string or object, [indexOf] on a non-array);
    no validated dataset reaches it. *)
Inductive exn := TypeError | Unmodelled.

Inductive result (A : Type) := Ok (a : A) | Err (e : exn).
Arguments Ok {A} a.
Arguments Err {A} e.

Definition M (A : Type) : Type := heap -> result A * heap.

Definition ret {A} (a : A) : M A := fun h => (Ok a, h).

Definition bind {A B} (m : M A) (k : A -> M B) : M B :=
  fun h => match m h with
           | (Ok a, h') => k a h'
           | (Err e, h') => (Err e, h')
           end.

Definition throw {A} (e : exn) : M A := fun h => (Err e, h).

Notation "'let*' x := m 'in' k" := (bind m (fun x => k))
  (at level 200, x name, m at level 100, k at level 200).

(** A new object at a location not in use. *)
Definition alloc (o : hobj) : M loc :=
  fun h => let l := fresh (dom h) in (Ok l, <[l := o]> h).

Definition read (l : loc) : M hobj :=
  fun h => match h !! l with
           | Some o => (Ok o, h)
           | None => (Err TypeError, h)
           end.

Definition write (l : loc) (o : hobj) : M unit :=
  fun h => (Ok tt, <[l := o]> h).

Fixpoint mapM {A B} (f : A -> M B) (l : list A) : M (list B) :=
  match l with
  | [] => ret []
  | x :: r => let* y := f x in let* ys := mapM f r in ret (y :: ys)
  end.

(** A [forEach] whose callback receives a running index. *)
Fixpoint forEach_from {A} (i : nat) (f : nat -> A -> M unit) (l : list A) : M unit :=
  match l with
  | [] => ret tt
  | x :: r => let* _ := f i x in forEach_from (S i) f r
  end.

Definition htruthy (v : hval) : bool :=
  match v with
  | HUndef | HNull => false
  | HBool b => b
  | HNum z => negb (z =? 0)
  | HStr s => negb (String.eqb s "")
  | HBuiltin _ | HRef _ => true
  end.

Definition hproto_get (p : proto) (k : string) : option hval :=
  if existsb (String.eqb k) (proto_names p) then Some (HBuiltin k) else None.

Definition or_undef (o : option hval) : hval :=
  match o with Some v => v | None => HUndef end.

(** Property read [v[k]] (as [JS.js_get], on the heap). *)
Definition get (v : hval) (k : string) : M hval :=
  match v with
  | HRef l =>
      let* o := read l in
      match o with
      | HObj ps =>
          ret (match own_get ps k with
               | Some x => x
               | None => or_undef (hproto_get ObjectProto k)
               end)
      | HArr vs =>
          ret (match array_index k with
               | Some i => or_undef (nth_error vs (Z.to_nat i))
               | None => if String.eqb k "length" then HNum (Z.of_nat (length vs))
                         else or_undef (hproto_get ArrayProto k)
               end)
      end
  | HStr s =>
      ret (match array_index k with
           | Some i => or_undef (option_map (fun c => HStr (String c EmptyString))
                                            (String.get (Z.to_nat i) s))
           | None => if String.eqb k "length" then HNum (Z.of_nat (String.length s))
                     else or_undef (hproto_get StringProto k)
           end)
  | HNum _ => ret (or_undef (hproto_get NumberProto k))
  | HBool _ => ret (or_undef (hproto_get BooleanProto k))
  | HBuiltin _ => ret (or_undef (hproto_get FunctionProto k))
  | HUndef | HNull => throw TypeError
  end.

Fixpoint hstring_entries (i : nat) (s : string) : list (string * hval) :=
  match s with
  | EmptyString => []
  | String c r => (nat_to_string i, HStr (String c EmptyString))
                    :: hstring_entries (S i) r
  end.

(** The key/value pairs [Object.entries(v)] lists. *)
Definition entries_of (v : hval) : M (list (string * hval)) :=
  match v with
  | HRef l =>
      let* o := read l in
      match o with
      | HObj ps => ret (own_keys_order ps)
      | HArr vs => ret (imap (fun i x => (nat_to_string i, x)) vs)
      end
  | HStr s => ret (hstring_entries 0 s)
  | HUndef | HNull => throw TypeError
  | _ => ret []
  end.

(** [Object.entries(v)]: a fresh array of fresh [[key, value]] arrays. *)
Definition object_entries_h (v : hval) : M loc :=
  let* es := entries_of v in
  let* pairs := mapM (fun '(k, x) => alloc (HArr [HStr k; x])) es in
  alloc (HArr (map HRef pairs)).

(** The elements of an array. *)
Definition elements (l : loc) : M (list hval) :=
  let* o := read l in
  match o with
  | HArr vs => ret vs
  | HObj _ => throw TypeError
  end.

Definition as_string (v : hval) : M string :=
  match v with HStr s => ret s | _ => throw Unmodelled end.

Definition as_number (v : hval) : M Z :=
  match v with HNum z => ret z | _ => throw Unmodelled end.

(** [values.reduce((sum, val) => sum + val, 0)] on numbers. *)
Definition reduce_sum (values : hval) : M hval :=
  match values with
  | HRef l =>
      let* o := read l in
      match o with
      | HArr vs =>
          let* zs := mapM as_number vs in
          ret (HNum (fold_left (fun sum val => sum + val) zs 0))
      | HObj _ => throw TypeError
      end
  | _ => throw TypeError
  end.

(** The [map] callback: [([name, values]) => ({ name, values, total })]. *)
Definition total_entry (entry : hval) : M hval :=
  let* name := get entry "0" in
  let* values := get entry "1" in
  let* total := reduce_sum values in
  let* o := alloc (HObj [("name", name); ("values", values); ("total", total)]) in
  ret (HRef o).

(** [arr.sort((a, b) => b.total - a.total)], in place. *)
Definition sort_by_total (arr : loc) : M unit :=
  let* vs := elements arr in
  let* keyed := mapM (fun v => let* t := get v "total" in
                               let* z := as_number t in ret (v, z)) vs in
  write arr (HArr (map fst (sort_by (fun a b => snd b - snd a) keyed))).

Definition hovertemplate : string :=
  "<b>%{fullData.name}</b><br>" ++ "Year: %{x}<br>" ++ "Topics: %{y}<br>"
  ++ "<extra></extra>".

(** [arr.push(v)]. *)
Definition push (arr : loc) (v : hval) : M unit :=
  let* vs := elements arr in write arr (HArr (vs ++ [v])).

(** The [forEach] callback of [createChartTraces]. *)
Definition trace_step (data : hval) (traces : loc) (colorIndex : nat) (ct : hval)
    : M unit :=
  let* name := get ct "name" in
  let* values := get ct "values" in
  let color := color_at colorIndex in
  let* key := as_string name in
  let* markers := get data "markers" in
  let* symbol :=
    (if htruthy markers then
       let* m := get markers key in
       if htruthy m then get markers key else ret (HStr "circle")
     else ret (HStr "circle")) in
  let* years := get data "years" in
  let* line := alloc (HObj [("width", HNum 3); ("color", HStr color);
                            ("shape", HStr "linear")]) in
  let* mline := alloc (HObj [("width", HNum 2); ("color", HStr "#ffffff")]) in
  let* marker := alloc (HObj [("size", HNum 10); ("color", HStr color);
                              ("symbol", symbol); ("line", HRef mline)]) in
  let* trace := alloc (HObj [("x", years); ("y", values);
                             ("mode", HStr "lines+markers"); ("name", name);
                             ("type", HStr "scatter"); ("line", HRef line);
                             ("marker", HRef marker);
                             ("hovertemplate", HStr hovertemplate);
                             ("connectgaps", HBool false)]) in
  push traces (HRef trace).

Definition createChartTraces_h (data : hval) : M loc :=
  let* traces := alloc (HArr []) in
  let* cats := get data "categories" in
  let* entries := object_entries_h cats in
  let* es := elements entries in
  let* cts := mapM total_entry es in
  let* categoryTotals := alloc (HArr cts) in
  let* _ := sort_by_total categoryTotals in
  let* sorted := elements categoryTotals in
  let* _ := forEach_from 0 (trace_step data traces) sorted in
  ret traces.

(** [data.years.indexOf(year)] on an array: strict equality with a number. *)
Fixpoint hindex_of (y : Z) (vs : list hval) : Z :=
  match vs with
  | [] => -1
  | v :: r =>
      let here := match v with HNum x => x =? y | _ => false end in
      if here then 0 else let i := hindex_of y r in if i <? 0 then -1 else i + 1
  end.

Definition index_of_h (arr : hval) (y : Z) : M Z :=
  match arr with
  | HRef l =>
      let* o := read l in
      match o with
      | HArr vs => ret (hindex_of y vs)
      | HObj _ => throw Unmodelled
      end
  | _ => throw Unmodelled
  end.

(** [getCategoryValue(categoryName, year)], a closure over [data]. *)
Definition getCategoryValue_h (data : hval) (categoryName : string) (year : Z)
    : M hval :=
  let* cats := get data "categories" in
  let* c := get cats categoryName in
  if negb (htruthy c) then ret (HNum 0) else
  let* years := get data "years" in
  let* yearIndex := index_of_h years year in
  if yearIndex >=? 0 then
    let* cats' := get data "categories" in
    let* c' := get cats' categoryName in
    get c' (nat_to_string (Z.to_nat yearIndex))
  else ret (HNum 0).

(** [value > 0] for the values [getCategoryValue] can return. *)
Definition greater_than_zero (v : hval) : M bool :=
  match v with
  | HNum z => ret (0 <? z)
  | HUndef | HNull => ret false
  | HBool b => ret b
  | _ => throw Unmodelled
  end.

(** One [if (value > 0) annotations.push({...})] block. *)
Definition annotation_step (data : hval) (annotations : loc) (categoryName : string)
    (year : Z) (text color : string) : M unit :=
  let* value := getCategoryValue_h data categoryName year in
  let* pos := greater_than_zero value in
  if pos then
    let* font := alloc (HObj [("size", HNum 11); ("color", HStr "#1a202c");
                              ("family", HStr "-apple-system, BlinkMacSystemFont, sans-serif")]) in
    let* a := alloc (HObj [("x", HNum year); ("y", value); ("text", HStr text);
                           ("showarrow", HBool true); ("arrowhead", HNum 2);
                           ("arrowsize", HNum 1); ("arrowwidth", HNum 2);
                           ("arrowcolor", HStr color); ("ax", HNum 0); ("ay", HNum (-40));
                           ("font", HRef font); ("bgcolor", HStr "rgba(255,255,255,0.9)");
                           ("bordercolor", HStr color); ("borderwidth", HNum 1);
                           ("borderpad", HNum 4)]) in
    push annotations (HRef a)
  else ret tt.

Definition createDynamicAnnotations_h (data : hval) : M loc :=
  let* annotations := alloc (HArr []) in
  let* _ := annotation_step data annotations "Machine Learning & AI" 2024
                            "LLMs<br>Emerge" "#FF6B6B" in
  let* _ := annotation_step data annotations "Social Sciences & Demographics" 2019
                            "Census<br>Focus" "#ed8936" in
  let* _ := annotation_step data annotations "Pandemic & Public Health" 2020
                            "COVID-19<br>Impact" "#48bb78" in
  ret annotations.

(** Deep serialization of a heap value (what [JSON.stringify], or a
    byte-for-byte comparison, sees), with fuel for the depth. *)
Fixpoint traverse {A B} (f : A -> option B) (l : list A) : option (list B) :=
  match l with
  | [] => Some []
  | x :: r => match f x, traverse f r with
              | Some y, Some ys => Some (y :: ys)
              | _, _ => None
              end
  end.

Fixpoint deep (n : nat) (h : heap) (v : hval) : option jvalue :=
  match v with
  | HUndef => Some JUndef
  | HNull => Some JNull
  | HBool b => Some (JBool b)
  | HNum z => Some (JNum z)
  | HStr s => Some (JStr s)
  | HBuiltin s => Some (JBuiltin s)
  | HRef l =>
      match n with
      | O => None
      | S n' =>
          match h !! l with
          | Some (HArr vs) => option_map JArr (traverse (deep n' h) vs)
          | Some (HObj ps) =>
              option_map JObj
                (traverse (fun p => option_map (pair (fst p)) (deep n' h (snd p))) ps)
          | None => None
          end
      end
  end.

(** The objects the builders produce, written out in full. *)
Definition zs_json (zs : list Z) : jvalue := JArr (map JNum zs).

Definition trace_json (t : Trace) : jvalue :=
  JObj [("x", zs_json (tr_x t)); ("y", zs_json (tr_y t));
        ("mode", JStr "lines+markers"); ("name", JStr (tr_name t));
        ("type", JStr "scatter");
        ("line", JObj [("width", JNum 3); ("color", JStr (tr_color t));
                       ("shape", JStr "linear")]);
        ("marker", JObj [("size", JNum 10); ("color", JStr (tr_color t));
                         ("symbol", tr_symbol t);
                         ("line", JObj [("width", JNum 2); ("color", JStr "#ffffff")])]);
        ("hovertemplate", JStr hovertemplate); ("connectgaps", JBool false)].

Definition annotation_json (a : Annotation) : jvalue :=
  JObj [("x", JNum (an_x a)); ("y", JNum (an_y a)); ("text", JStr (an_text a));
        ("showarrow", JBool true); ("arrowhead", JNum 2); ("arrowsize", JNum 1);
        ("arrowwidth", JNum 2); ("arrowcolor", JStr (an_color a)); ("ax", JNum 0);
        ("ay", JNum (-40));
        ("font", JObj [("size", JNum 11); ("color", JStr "#1a202c");
                       ("family", JStr "-apple-system, BlinkMacSystemFont, sans-serif")]);
        ("bgcolor", JStr "rgba(255,255,255,0.9)"); ("bordercolor", JStr (an_color a));
        ("borderwidth", JNum 1); ("borderpad", JNum 4)].

(** A dataset object as the builders receive it. *)
Definition dataset_json (d : Dataset) : jvalue :=
  JObj ([("years", zs_json (years d));
         ("categories", JObj (map (fun p => (fst p, zs_json (snd p))) (categories d)))]
        ++ match markers d with Some m => [("markers", m)] | None => [] end).

(** [JSON.parse] building a value on the heap: every array and object is
    a fresh heap object. *)
Fixpoint store_json (v : jvalue) : M hval :=
  match v with
  | JUndef => ret HUndef
  | JNull => ret HNull
  | JBool b => ret (HBool b)
  | JNum z => ret (HNum z)
  | JStr s => ret (HStr s)
  | JBuiltin s => ret (HBuiltin s)
  | JArr vs =>
      let* hs := (fix go (l : list jvalue) : M (list hval) :=
                    match l with
                    | [] => ret []
                    | x :: r => let* y := store_json x in let* ys := go r in ret (y :: ys)
                    end) vs in
      let* l := alloc (HArr hs) in ret (HRef l)
  | JObj ps =>
      let* hs := (fix go (l : list (string * jvalue)) : M (list (string * hval)) :=
                    match l with
                    | [] => ret []
                    | (k, x) :: r => let* y := store_json x in let* ys := go r in
                                     ret ((k, y) :: ys)
                    end) ps in
      let* l := alloc (HObj hs) in ret (HRef l)
  end.

End HeapModel.

Import HeapModel.

(* ================================================================= *)
(** ** [createChartLayout] *)

Module Layout.








End Layout.

Import Layout.

(* ================================================================= *)
(** ** [initializeApp] *)

Module Init.

(** What the chart element shows at the end: a view left by the loader
    or by [renderChart], or the message of [initializeApp]'s own
    [catch] block. *)
Inductive page := PView (v : view) | PMessage (msg : string).

Section InitializeApp.

(** [renderChart(data)]: it catches its own errors (and shows its own
    message), so the promise it returns never rejects. *)
Variable renderChart : jvalue -> World -> World.

(** [initializeApp]: [loadTopicData()], then [throw] when the result is
    falsy, else [renderChart(data)]; the [catch] block shows
    'Application failed to initialize'. *)
Definition initializeApp (r : fetch_outcome) (w : World) : AppState * page :=
  let (res, w1) := loadTopicData r w in
  match res with
  | Some data =>
      if truthy data then let w2 := renderChart data w1 in (app w2, PView (chart_view w2))
      else (app w1, PMessage "Application failed to initialize")
  | None => (app w1, PMessage "Application failed to initialize")
  end.

End InitializeApp.

End Init.

Import Init.

(* ================================================================= *)
(** ** The specification's reading of the annotation triggers *)

Module SpecModels.

(** The fixed trigger list (category, year, label, colour hint), in the
    order of the source. *)
Definition annotation_triggers : list (string * Z * string * string) :=
  [("Machine Learning & AI", 2024, "LLMs<br>Emerge", "#FF6B6B");
   ("Social Sciences & Demographics", 2019, "Census<br>Focus", "#ed8936");
   ("Pandemic & Public Health", 2020, "COVID-19<br>Impact", "#48bb78")].

Fixpoint position (y : Z) (l : list Z) : option nat :=
  match l with
  | [] => None
  | x :: r => if x =? y then Some 0%nat else option_map S (position y r)
  end.

(** The value at the exact (category, year) pair, when there is one. *)
Definition value_at (d : Dataset) (c : string) (y : Z) : option Z :=
  match own_get (categories d) c with
  | Some vs => match position y (years d) with
               | Some i => nth_error vs i
               | None => None
               end
  | None => None
  end.

(** [buildAnnotations] as the specification describes it: for each
    trigger, emit the annotation when the lookup succeeds with a value
    greater than zero, in the list's order. *)
Definition buildAnnotations_spec (d : Dataset) : list Annotation :=
  flat_map (fun '(c, y, text, color) =>
              match value_at d c y with
              | Some v => if 0 <? v then [mkAnnotation y v text color] else []
              | None => []
              end) annotation_triggers.

End SpecModels.

Import SpecModels.

(* ================================================================= *)
(** ** Concrete inputs *)

Module Samples.

(** Totals [{A:10, B:30, C:30}], B created before C. *)
Definition D_abc : Dataset :=
  mkDataset [2020] [("A", [10]); ("B", [30]); ("C", [30])] None.


(** A markers object with no own key for the category "toString". *)
Definition D_toString : Dataset :=
  mkDataset [2020] [("toString", [1]); ("x", [2])] (Some (JObj [("x", JStr "")])).

(** All three annotation triggers present, one of them with value 0. *)
Definition D_ann : Dataset :=
  mkDataset [2019; 2020; 2024]
    [("Machine Learning & AI", [1; 0; 3]); ("Pandemic & Public Health", [0; 0; 1]);
     ("Social Sciences & Demographics", [7; 2; 2])] None.

Definition D_heap : Dataset :=
  mkDataset [2019; 2020; 2024]
    [("Machine Learning & AI", [1; 0; 3]); ("1", [4; 4; 4]); ("B", [0; 5; 0])]
    (Some (JObj [("B", JStr "square")])).

(** The heap holding [D_heap] as [JSON.parse] leaves it, and the value
    [data]. *)
Definition heap_D : heap := snd (store_json (dataset_json D_heap) ∅).
Definition data_D : hval :=
  match fst (store_json (dataset_json D_heap) ∅) with Ok v => v | Err _ => HUndef end.

Definition body_json (d : jvalue) : fetch_outcome := FetchResponse true 200 "OK" (Some d).

End Samples.

Import Samples.

Open Scope list_scope.

(* ================================================================= *)
(** ** Definitions used by the statements and proofs *)

(** The comparator of [category_totals], by a key, and the order it sorts by. *)
Definition desc {A} (key : A -> Z) (a b : A) : Z := key b - key a.

(** Elements with key [t]. *)
Definition key_is {A} (key : A -> Z) (t : Z) (a : A) : bool := key a =? t.

(** A category total from an entry [[name, values]]. *)
Definition mk_total (p : string * list Z) : CategoryTotal :=
  mkCategoryTotal (fst p) (snd p) (sum_values (snd p)).

(** A body whose [Finance] array is one short of [years]. *)
Definition short_json : jvalue :=
  JObj [("years", JArr [JNum 2019; JNum 2020; JNum 2021]);
        ("categories", JObj [("AI", JArr [JNum 1; JNum 2; JNum 3]);
                             ("Finance", JArr [JNum 1; JNum 2])])].

(** Calls that are all [Plotly.Plots.resize('evolution-chart')]. *)
Definition only_resizes (l : list render_call) : Prop :=
  Forall (fun c => c = PlotsResize "evolution-chart") l.

(** The render state before the first render. *)
Definition initialRState : RState := mkRState 0 None false false [].

(** [keeps h0 m Q]: run from any heap that extends [h0], [m] leaves every
    object of [h0] as it was, and [Q] holds of its result. *)
Definition keeps (h0 : heap) {A} (m : M A) (Q : A -> Prop) : Prop :=
  forall h, h0 ⊆ h ->
    h0 ⊆ snd (m h) /\ match fst (m h) with Ok a => Q a | Err _ => True end.

(** [rep h v j]: the heap value [v] reads as [j] in [h]. *)
Definition rep (h : heap) (v : hval) (j : jvalue) : Prop := exists n, deep n h v = Some j.

(** [v[k]] as the specification reads it ([undefined] for [None]). *)
Definition js_prop (j : jvalue) (k : string) : jvalue :=
  match js_get j k with Some y => y | None => JUndef end.

(** What a heap value reading as [j] looks like. *)
Definition rep_shape (h : heap) (v : hval) (j : jvalue) : Prop :=
  match j with
  | JUndef => v = HUndef
  | JNull => v = HNull
  | JBool b => v = HBool b
  | JNum z => v = HNum z
  | JStr s => v = HStr s
  | JBuiltin s => v = HBuiltin s
  | JArr js => exists l vs, v = HRef l /\ h !! l = Some (HArr vs) /\ Forall2 (rep h) vs js
  | JObj qs => exists l ps, v = HRef l /\ h !! l = Some (HObj ps) /\
                 Forall2 (fun p q => fst p = fst q /\ rep h (snd p) (snd q)) ps qs
  end.

(** [R] on the values of two entries with the same key. *)
Definition keyrel {A B} (R : A -> B -> Prop) (p : string * A) (q : string * B) : Prop :=
  fst p = fst q /\ R (snd p) (snd q).

(** The objects [{ name, values, total }] as they sit on the heap. *)
Definition ct_at (h hb : heap) (o : loc) (ct : CategoryTotal) : Prop :=
  exists x, h !! o = Some (HObj [("name", HStr (ct_name ct)); ("values", x);
                                ("total", HNum (ct_total ct))]) /\
            rep hb x (zs_json (ct_values ct)).

(** Events each more than [wait] after the previous one. *)
Fixpoint spaced (prev : Z) (ts : list Z) : bool :=
  match ts with
  | [] => true
  | t :: r => (prev + wait <? t) && spaced t r
  end.

(** One for a pending debounce timer. *)
Definition pending (s : RState) : nat :=
  match timeout s with Some _ => 1 | None => 0 end.

(* ================================================================= *)
(** ** Lemmas on the sort and on [Object.entries] *)

(** [List.NoDup] of a literal list whose elements are told apart by
    [discriminate]. *)
Ltac nodup_tac :=
  repeat (apply List.NoDup_cons;
          [cbn; let H := fresh in intros H;
                repeat (destruct H as [H|H]; [discriminate H|]); exact H|]);
  apply List.NoDup_nil.

Section SortBy.

Context {A : Type}.

Lemma insert_by_perm (cmp : A -> A -> Z) x l :
  Permutation (insert_by cmp x l) (x :: l).
Proof.
  induction l as [|y ys IH]; simpl; [reflexivity|].
  destruct (cmp x y <? 0); [reflexivity|].
  rewrite IH. apply perm_swap.
Qed.

Lemma sort_by_perm_acc (cmp : A -> A -> Z) l acc :
  Permutation (fold_left (fun acc x => insert_by cmp x acc) l acc) (acc ++ l).
Proof.
  revert acc; induction l as [|x r IH]; intros acc; simpl.
  - rewrite app_nil_r. reflexivity.
  - rewrite IH, insert_by_perm.
    change (x :: acc) with ([x] ++ acc).
    rewrite <- (Permutation_middle acc r x). reflexivity.
Qed.

Lemma sort_by_perm (cmp : A -> A -> Z) l : Permutation (sort_by cmp l) l.
Proof. unfold sort_by. rewrite sort_by_perm_acc. reflexivity. Qed.

Variable key : A -> Z.









Lemma insert_by_filter_other t x l :
  key_is key t x = false ->
  List.filter (key_is key t) (insert_by (desc key) x l) = List.filter (key_is key t) l.
Proof.
  intros Hx. induction l as [|y ys IH]; simpl.
  - rewrite Hx. reflexivity.
  - destruct (desc key x y <? 0); simpl.
    + rewrite Hx. reflexivity.
    + rewrite IH. reflexivity.
Qed.



End SortBy.

Lemma filter_partition_perm {A} (f : A -> bool) (l : list A) :
  Permutation (List.filter f l ++ List.filter (fun x => negb (f x)) l) l.
Proof.
  induction l as [|x r IH]; simpl; [reflexivity|].
  destruct (f x); simpl.
  - now apply perm_skip.
  - rewrite <- Permutation_middle. now apply perm_skip.
Qed.

Lemma own_keys_order_perm {A} (ps : list (string * A)) :
  Permutation (own_keys_order ps) ps.
Proof.
  unfold own_keys_order. rewrite sort_by_perm.
  apply (filter_partition_perm (fun p => is_array_index (fst p))).
Qed.


Lemma sorted_map_in {A B} (R : A -> A -> Prop) (R' : B -> B -> Prop) (P : A -> Prop)
    (f : A -> B) (l : list A) :
  (forall a b, P a -> P b -> R a b -> R' (f a) (f b)) ->
  Forall P l -> Sorted R l -> Sorted R' (map f l).
Proof.
  intros HR HP Hs. induction Hs as [|a r Hs IH Hd]; simpl; constructor.
  - apply IH. now inversion HP.
  - destruct Hd as [|b r' Hab]; simpl; constructor.
    inversion HP as [|? ? Pa HP']; subst. inversion HP'; subst. now apply HR.
Qed.


Lemma build_traces_colors d i cts :
  map tr_color (build_traces d i cts) = map color_at (seq i (length cts)).
Proof.
  revert i; induction cts as [|c r IH]; intros i; simpl; [reflexivity|].
  now rewrite IH.
Qed.

Lemma build_traces_symbols d i cts :
  Forall (fun t => tr_symbol t = marker_symbol d (tr_name t)) (build_traces d i cts).
Proof.
  revert i; induction cts as [|c r IH]; intros i; simpl; constructor; auto.
Qed.

Lemma length_build_traces d i cts : length (build_traces d i cts) = length cts.
Proof. revert i; induction cts; intros i; simpl; auto. Qed.

Lemma category_totals_eq d :
  category_totals d = sort_by (desc ct_total) (map mk_total (own_keys_order (categories d))).
Proof.
  unfold category_totals, desc. f_equal. apply map_ext. intros [n v]. reflexivity.
Qed.


Lemma category_totals_pairs_perm d :
  Permutation (map (fun c => (ct_name c, ct_values c)) (category_totals d)) (categories d).
Proof.
  rewrite category_totals_eq. rewrite sort_by_perm. rewrite map_map.
  rewrite map_ext with (g := fun p => p) by (intros [a b]; reflexivity).
  rewrite map_id. apply own_keys_order_perm.
Qed.

Lemma length_createChartTraces d :
  length (createChartTraces d) = length (categories d).
Proof.
  unfold createChartTraces. rewrite length_build_traces.
  rewrite <- (length_map (fun c => (ct_name c, ct_values c))).
  apply Permutation_length, category_totals_pairs_perm.
Qed.


(* ================================================================= *)
(** ** C1: the order of the series *)



(* ================================================================= *)
(** ** C4: colours *)

Lemma NoDup_colors : List.NoDup colors.
Proof. unfold colors. nodup_tac. Qed.

Lemma nth_error_colors_map n i :
  (i < n)%nat ->
  nth_error (map color_at (seq 0 n)) i = Some (nth (i mod length colors) colors "").
Proof.
  intros Hi. rewrite nth_error_map, nth_error_seq.
  destruct (Nat.ltb_spec i n); [reflexivity|lia].
Qed.

(** C4: the trace at sorted position [i] gets [colors[i mod 20]]; the
    palette has 20 colours; with 21 or more categories the first and the
    21st trace share a colour; and the colours are pairwise distinct
    exactly when there are at most 20 categories. *)
Theorem createChartTraces_colors (d : Dataset) :
  map tr_color (createChartTraces d)
    = map (fun i => nth (i mod length colors) colors "") (seq 0 (length (categories d))) /\
  length colors = 20%nat /\
  ((21 <= length (categories d))%nat ->
   nth_error (map tr_color (createChartTraces d)) 0
   = nth_error (map tr_color (createChartTraces d)) 20) /\
  (List.NoDup (map tr_color (createChartTraces d)) <-> (length (categories d) <= length colors)%nat).
Proof.
  assert (Hc : map tr_color (createChartTraces d) = map color_at (seq 0 (length (categories d)))).
  { rewrite <- (length_createChartTraces d).
    unfold createChartTraces. rewrite length_build_traces. apply build_traces_colors. }
  split; [exact Hc|].
  split; [reflexivity|].
  split.
  { intros H21. rewrite Hc, !nth_error_colors_map by lia. reflexivity. }
  rewrite Hc. rewrite List.NoDup_nth_error. rewrite length_map, length_seq.
  split.
  - intros Hnd. destruct (Nat.le_gt_cases (length (categories d)) (length colors))
      as [Hle|Hgt]; [exact Hle|].
    exfalso. assert (E := Hnd 0%nat 20%nat ltac:(simpl in *; lia)).
    rewrite !nth_error_colors_map in E by (simpl in *; lia). discriminate E. reflexivity.
  - intros Hle i j Hi Hij.
    assert (Hj : (j < length (categories d))%nat).
    { destruct (Nat.lt_ge_cases j (length (categories d))) as [Hj|Hj]; [exact Hj|].
      rewrite nth_error_colors_map in Hij by exact Hi.
      rewrite nth_error_map, nth_error_seq in Hij.
      destruct (Nat.ltb_spec j (length (categories d))); [lia|discriminate]. }
    rewrite !nth_error_colors_map in Hij by assumption.
    assert (E : nth (i mod length colors) colors "" = nth (j mod length colors) colors "")
      by congruence.
    rewrite !Nat.mod_small in E by lia.
    apply (proj1 (List.NoDup_nth colors "") NoDup_colors) in E; [exact E|lia|lia].
Qed.

(* ================================================================= *)
(** ** C2: annotations *)

Lemma index_of_position y l :
  index_of y l = match position y l with Some i => Z.of_nat i | None => -1 end.
Proof.
  induction l as [|x r IH]; simpl; [reflexivity|].
  destruct (x =? y); [reflexivity|]. rewrite IH.
  destruct (position y r) as [i|]; simpl; [|reflexivity].
  destruct (Z.ltb_spec (Z.of_nat i) 0); lia.
Qed.

Lemma push_if_value_at d c y text color acc :
  existsb (String.eqb c) object_proto_names = false ->
  push_if (getCategoryValue d c y) y text color acc
  = acc ++ match value_at d c y with
           | Some v => if 0 <? v then [mkAnnotation y v text color] else []
           | None => []
           end.
Proof.
  intros Hp. unfold getCategoryValue, value_at.
  destruct (own_get (categories d) c) as [vs|].
  - rewrite index_of_position. destruct (position y (years d)) as [i|].
    + assert (Hge : (Z.of_nat i >=? 0) = true) by (apply Z.geb_le; lia).
      rewrite Hge, Nat2Z.id.
      destruct (nth_error vs i) as [v|]; simpl; [|now rewrite app_nil_r].
      destruct (0 <? v); [reflexivity|now rewrite app_nil_r].
    + simpl. now rewrite app_nil_r.
  - rewrite Hp. simpl. now rewrite app_nil_r.
Qed.

Lemma own_get_in {A} (ps : list (string * A)) k v :
  List.NoDup (map fst ps) -> own_get ps k = Some v <-> In (k, v) ps.
Proof.
  unfold own_get. induction ps as [|[k' v'] r IH]; simpl; intros Hnd.
  - split; [discriminate|tauto].
  - inversion Hnd as [|? ? Hk Hnd']; subst.
    destruct (String.eqb_spec k' k) as [->|Hne].
    + split.
      * intros [= ->]. now left.
      * intros [[= ->]|Hin]; [reflexivity|].
        exfalso. apply Hk. apply in_map_iff. now exists (k, v).
    + rewrite IH by exact Hnd'. split; [now right|].
      intros [[= -> ->]|Hin]; [congruence|exact Hin].
Qed.

Lemma position_nth y l i :
  List.NoDup l -> position y l = Some i <-> nth_error l i = Some y.
Proof.
  revert i; induction l as [|x r IH]; intros i Hnd; simpl.
  - destruct i; simpl; split; discriminate.
  - inversion Hnd as [|? ? Hx Hnd']; subst.
    destruct (Z.eqb_spec x y) as [->|Hne].
    + destruct i as [|i]; simpl; split; intros H; try reflexivity; try discriminate.
      exfalso. apply Hx. eapply nth_error_In. exact H.
    + destruct i as [|i]; simpl.
      * split; [destruct (position y r); discriminate|congruence].
      * rewrite <- IH by exact Hnd'. destruct (position y r); simpl; split; congruence.
Qed.

(** C2: for each entry of the fixed trigger list, in order,
    [createDynamicAnnotations] emits the annotation exactly when the
    dataset has that category (exact, case-sensitive name) and that year
    and the value at that position is greater than zero; otherwise the
    entry is skipped.  (Category names unique, years without repeats, as
    in a validated dataset.) *)
Theorem createDynamicAnnotations_triggers (d : Dataset)
    (Hnames : List.NoDup (map fst (categories d))) (Hyears : List.NoDup (years d)) :
  createDynamicAnnotations d = buildAnnotations_spec d /\
  (forall c y v, value_at d c y = Some v <->
     exists vs i, In (c, vs) (categories d) /\ nth_error (years d) i = Some y /\
                  nth_error vs i = Some v).
Proof.
  split.
  - unfold createDynamicAnnotations, buildAnnotations_spec. simpl flat_map.
    rewrite !push_if_value_at by reflexivity.
    rewrite !app_nil_r. simpl. rewrite <- !app_assoc. reflexivity.
  - intros c y v. unfold value_at. split.
    + destruct (own_get (categories d) c) as [vs|] eqn:Eg; [|discriminate].
      destruct (position y (years d)) as [i|] eqn:Ep; [|discriminate].
      intros Hv. exists vs, i. split; [now apply own_get_in|].
      split; [now apply position_nth|exact Hv].
    + intros (vs & i & Hin & Hy & Hv).
      apply own_get_in in Hin; [|exact Hnames]. rewrite Hin.
      apply position_nth in Hy; [|exact Hyears]. now rewrite Hy.
Qed.

Lemma createDynamicAnnotations_triggers_witness :
  List.NoDup (map fst (categories D_ann)) /\ List.NoDup (years D_ann) /\
  createDynamicAnnotations D_ann = buildAnnotations_spec D_ann.
Proof.
  assert (H1 : List.NoDup (map fst (categories D_ann))) by (simpl; nodup_tac).
  assert (H2 : List.NoDup (years D_ann)) by (simpl; nodup_tac).
  split; [exact H1|]. split; [exact H2|].
  apply (createDynamicAnnotations_triggers D_ann H1 H2).
Defined.

(* ================================================================= *)
(** ** C10: the marker symbol *)

(** C10 (amended): each trace's symbol is
    [data.markers && data.markers[name] ? data.markers[name] : 'circle'].
    With no [markers] field, or a falsy one, every symbol is 'circle'.
    With a [markers] object: an own key with a truthy value gives that
    value, an own key with a falsy value (such as "") gives 'circle'; a
    name with no own key gives 'circle' unless it names a member
    inherited from [Object.prototype] ("toString", "constructor", ...),
    which is truthy and becomes the symbol. *)
Theorem createChartTraces_symbol (d : Dataset) :
  Forall (fun t => tr_symbol t = marker_symbol d (tr_name t)) (createChartTraces d) /\
  (forall name, markers d = None -> marker_symbol d name = JStr "circle") /\
  (forall name m, markers d = Some m -> truthy m = false ->
     marker_symbol d name = JStr "circle") /\
  (forall name ps v, markers d = Some (JObj ps) -> own_get ps name = Some v ->
     marker_symbol d name = if truthy v then v else JStr "circle") /\
  (forall name ps, markers d = Some (JObj ps) -> own_get ps name = None ->
     marker_symbol d name = if existsb (String.eqb name) object_proto_names
                            then JBuiltin name else JStr "circle").
Proof.
  split; [apply build_traces_symbols|].
  unfold marker_symbol.
  split; [intros name -> ; reflexivity|].
  split; [intros name m -> Hm; now rewrite Hm|].
  split.
  - intros name ps v -> Hv. simpl. now rewrite Hv.
  - intros name ps -> Hn. cbn [truthy]. unfold js_get. rewrite Hn.
    unfold proto_get, proto_names.
    destruct (existsb (String.eqb name) object_proto_names); reflexivity.
Qed.

(** C10: counterexample.  The category "toString" has no key in the
    [markers] object, yet its series does not get 'circle': it gets the
    inherited [Object.prototype.toString]. *)
Lemma createChartTraces_symbol_inherited :
  markers D_toString = Some (JObj [("x", JStr "")]) /\
  own_get [("x", JStr "")] "toString" = None /\
  map (fun t => (tr_name t, tr_symbol t)) (createChartTraces D_toString)
  = [("x", JStr "circle"); ("toString", JBuiltin "toString")].
Proof. split; [reflexivity|]. split; reflexivity. Qed.

(* ================================================================= *)
(** ** C3, C5, C8: the loader *)

Lemma first_inconsistent_none n es :
  first_inconsistent n es = None ->
  Forall (fun e => exists vs, snd e = JArr vs /\ length vs = n) es.
Proof.
  induction es as [|[c v] r IH]; simpl; intros H; constructor.
  - destruct v; simpl in H; try discriminate.
    destruct (Nat.eqb_spec (length vs) n); [|discriminate].
    now exists vs.
  - destruct (negb (is_array v) || negb (Nat.eqb (array_length v) n)); [discriminate|].
    now apply IH.
Qed.

Lemma first_inconsistent_first n pre c v post :
  Forall (fun e => is_array (snd e) = true /\ array_length (snd e) = n) pre ->
  (is_array v = false \/ array_length v <> n) ->
  first_inconsistent n (pre ++ (c, v) :: post) = Some c.
Proof.
  intros Hpre Hv. induction Hpre as [|[c' v'] r [Ha Hl] _ IH]; simpl.
  - destruct Hv as [Hv|Hv].
    + now rewrite Hv.
    + apply Nat.eqb_neq in Hv. rewrite Hv. now rewrite orb_true_r.
  - simpl in Ha, Hl. rewrite Ha, Hl, Nat.eqb_refl. exact IH.
Qed.

(** C8 (amended): when [loadTopicData] returns a value, it is the value
    stored in [AppState.data], no error is recorded, its [years] is an
    array, its [categories] is truthy, and every entry [Object.entries]
    lists for [categories] is an array of the length of [years].  Nothing
    more is checked. *)
Theorem loadTopicData_success (r : fetch_outcome) (w : World) (d : jvalue)
    (Hok : fst (loadTopicData r w) = Some d) :
  data (app (snd (loadTopicData r w))) = Some d /\
  error (app (snd (loadTopicData r w))) = None /\
  exists ys, prop d "years" = JArr ys /\ truthy (prop d "categories") = true /\
    Forall (fun e => exists vs, snd e = JArr vs /\ length vs = length ys)
           (object_entries (prop d "categories")).
Proof.
  unfold loadTopicData in *.
  destruct (load_body r) as [d'|e] eqn:Eb; simpl in Hok; [|discriminate].
  injection Hok as <-. simpl. split; [reflexivity|]. split; [reflexivity|].
  unfold load_body in Eb.
  destruct r as [|ok st txt [body|]]; [discriminate| |destruct ok; discriminate].
  destruct ok; simpl in Eb; [|discriminate].
  destruct (nullish body); [discriminate|].
  destruct (truthy (prop body "years")) eqn:Ey; simpl in Eb; [|discriminate].
  destruct (truthy (prop body "categories")) eqn:Ec; simpl in Eb; [|discriminate].
  destruct (prop body "years") as [| | | | |ys| |] eqn:Ea; simpl in Eb; try discriminate.
  destruct (first_inconsistent (length ys) (object_entries (prop body "categories")))
    eqn:Ef; [discriminate|].
  injection Eb as <-. exists ys. split; [exact Ea|]. split; [exact Ec|].
  now apply first_inconsistent_none.
Qed.

Lemma loadTopicData_success_witness :
  fst (loadTopicData (body_json (dataset_json D_abc)) initialWorld)
    = Some (dataset_json D_abc) /\
  data (app (snd (loadTopicData (body_json (dataset_json D_abc)) initialWorld)))
    = Some (dataset_json D_abc).
Proof.
  assert (H : fst (loadTopicData (body_json (dataset_json D_abc)) initialWorld)
              = Some (dataset_json D_abc)) by reflexivity.
  split; [exact H|]. apply (loadTopicData_success _ _ _ H).
Defined.

(** C8: counterexample.  Decreasing years and a negative count load
    successfully, and so do an empty [years] with no categories: the
    loaded value need not satisfy the specification's data model. *)
Lemma loadTopicData_accepts_outside_model :
  let bad := JObj [("years", JArr [JNum 2020; JNum 2019]);
                   ("categories", JObj [("A", JArr [JNum (-1); JNum 5])])] in
  let empty := JObj [("years", JArr []); ("categories", JObj [])] in
  fst (loadTopicData (body_json bad) initialWorld) = Some bad /\
  spec_dataset_ok bad = false /\
  fst (loadTopicData (body_json empty) initialWorld) = Some empty /\
  spec_dataset_ok empty = false.
Proof. repeat split; reflexivity. Qed.

(** C5 (amended): for a parsed body that is not [null], when [years] or
    [categories] is absent or falsy, or [years] is not an array,
    [loadTopicData] throws the schema error ('Invalid data format:
    missing required fields'): it returns nothing, leaves
    [AppState.data] as it was, records the error and shows it. *)
Theorem loadTopicData_schema (d : jvalue) (w : World) (status : Z) (text : string)
    (Hnn : nullish d = false)
    (Hbad : truthy (prop d "years") = false \/ truthy (prop d "categories") = false
            \/ is_array (prop d "years") = false) :
  loadTopicData (FetchResponse true status text (Some d)) w
  = (None, mkWorld (mkAppState (data (app w)) false (Some ESchema) (chartInstance (app w)))
                   (VError ESchema)).
Proof.
  unfold loadTopicData, load_body. simpl. rewrite Hnn.
  destruct Hbad as [H|[H|H]]; rewrite H; simpl.
  - reflexivity.
  - now rewrite orb_true_r.
  - now rewrite !orb_true_r.
Qed.

Lemma loadTopicData_schema_witness :
  nullish (JObj [("categories", JObj [])]) = false /\
  fst (loadTopicData (body_json (JObj [("categories", JObj [])])) initialWorld) = None.
Proof.
  split; [reflexivity|]. unfold body_json.
  rewrite (loadTopicData_schema (JObj [("categories", JObj [])]) initialWorld 200 "OK");
    [reflexivity|reflexivity|left; reflexivity].
Defined.

(** C5: counterexample.  A [categories] field that is a number is not a
    mapping, yet the data loads; one that is a string fails with the
    consistency error, not the schema error. *)
Lemma loadTopicData_accepts_non_mapping_categories :
  let num := JObj [("years", JArr [JNum 2020]); ("categories", JNum 5)] in
  let str := JObj [("years", JArr [JNum 2020]); ("categories", JStr "ab")] in
  fst (loadTopicData (body_json num) initialWorld) = Some num /\
  error (app (snd (loadTopicData (body_json str) initialWorld))) = Some (EConsistency "0").
Proof. split; reflexivity. Qed.

(** C3 (amended): for a body that passes the schema check, when some
    entry of [Object.entries(data.categories)] is not an array or has a
    length other than [years.length], [loadTopicData] throws the
    consistency error naming the first such category in that order: it
    returns nothing, leaves [AppState.data] as it was, records the error
    and shows it. *)
Theorem loadTopicData_inconsistent (d : jvalue) (w : World) (status : Z) (text : string)
    (ys : list jvalue) (pre post : list (string * jvalue)) (c : string) (v : jvalue)
    (Hnn : nullish d = false) (Hy : prop d "years" = JArr ys)
    (Hc : truthy (prop d "categories") = true)
    (He : object_entries (prop d "categories") = pre ++ (c, v) :: post)
    (Hpre : Forall (fun e => is_array (snd e) = true /\ array_length (snd e) = length ys) pre)
    (Hv : is_array v = false \/ array_length v <> length ys) :
  loadTopicData (FetchResponse true status text (Some d)) w
  = (None, mkWorld (mkAppState (data (app w)) false (Some (EConsistency c))
                               (chartInstance (app w)))
                   (VError (EConsistency c))).
Proof.
  unfold loadTopicData, load_body. simpl. rewrite Hnn, Hy, Hc. simpl.
  rewrite He, (first_inconsistent_first _ pre c v post Hpre Hv). reflexivity.
Qed.

Lemma loadTopicData_inconsistent_witness :
  loadTopicData (body_json short_json) initialWorld
  = (None, mkWorld (mkAppState None false (Some (EConsistency "Finance")) false)
                   (VError (EConsistency "Finance"))).
Proof.
  apply (loadTopicData_inconsistent short_json initialWorld 200 "OK"
           [JNum 2019; JNum 2020; JNum 2021] [("AI", JArr [JNum 1; JNum 2; JNum 3])] []
           "Finance" (JArr [JNum 1; JNum 2])); try reflexivity.
  - repeat constructor.
  - right. simpl. lia.
Defined.

(** C3: counterexample.  With two offending categories X and Y, the
    error names X only: the claim fails for Y. *)
Lemma loadTopicData_names_first_only :
  let two := JObj [("years", JArr [JNum 2020; JNum 2021]);
                   ("categories", JObj [("X", JArr [JNum 1]); ("Y", JArr [JNum 1])])] in
  In ("Y", JArr [JNum 1]) (object_entries (prop two "categories")) /\
  error (app (snd (loadTopicData (body_json two) initialWorld))) = Some (EConsistency "X") /\
  error (app (snd (loadTopicData (body_json two) initialWorld))) <> Some (EConsistency "Y").
Proof. split; [simpl; auto|]. split; [reflexivity|]. simpl. congruence. Qed.

(* ================================================================= *)
(** ** C7: the resize path *)

Lemma resize_callback_calls s :
  exists l, calls (resize_callback s) = calls s ++ l /\ only_resizes l.
Proof.
  unfold resize_callback. destruct (chart s); simpl.
  - exists [PlotsResize "evolution-chart"]. split; [reflexivity|]. repeat constructor.
  - exists []. split; [now rewrite app_nil_r|constructor].
Qed.

Lemma advance_calls t s :
  exists l, calls (advance t s) = calls s ++ l /\ only_resizes l.
Proof.
  unfold advance. destruct (timeout s) as [due|].
  - destruct (due <=? t).
    + apply (resize_callback_calls (mkRState t None (listening s) (chart s) (calls s))).
    + exists []. split; [simpl; now rewrite app_nil_r|constructor].
  - exists []. split; [simpl; now rewrite app_nil_r|constructor].
Qed.

Lemma on_resize_calls t s :
  exists l, calls (on_resize t s) = calls s ++ l /\ only_resizes l.
Proof.
  unfold on_resize. destruct (advance_calls t s) as [l [E F]].
  destruct (listening (advance t s)); simpl; exists l; auto.
Qed.

Lemma run_events_calls ts s :
  exists l, calls (run_events ts s) = calls s ++ l /\ only_resizes l.
Proof.
  unfold run_events. revert s. induction ts as [|t r IH]; intros s; simpl.
  - exists []. split; [now rewrite app_nil_r|constructor].
  - destruct (on_resize_calls t s) as [l1 [E1 F1]].
    destruct (IH (on_resize t s)) as [l2 [E2 F2]].
    exists (l1 ++ l2). split.
    + rewrite E2, E1. now rewrite app_assoc.
    + now apply Forall_app.
Qed.

Lemma last_cons_default (t p : Z) (r : list Z) : List.last (t :: r) p = List.last r t.
Proof.
  revert t p. induction r as [|a r IH]; intros t p; [reflexivity|].
  change (List.last (a :: r) p = List.last (a :: r) t).
  rewrite (IH a p), (IH a t). reflexivity.
Qed.

Lemma burst_quiet prev ts s :
  burst prev ts = true -> timeout s = Some (prev + wait) ->
  listening s = true -> chart s = true ->
  timeout (run_events ts s) = Some (List.last ts prev + wait) /\
  listening (run_events ts s) = true /\ chart (run_events ts s) = true /\
  calls (run_events ts s) = calls s.
Proof.
  unfold run_events. revert prev s. induction ts as [|t r IH]; intros prev s Hb Ht Hl Hc.
  - simpl. auto.
  - simpl in Hb. apply andb_true_iff in Hb as [Hb Hr]. apply andb_true_iff in Hb as [H1 H2].
    apply Z.ltb_lt in H2. cbn [fold_left].
    assert (Eo : on_resize t s = mkRState t (Some (t + wait)) true true (calls s)).
    { unfold on_resize, advance. rewrite Ht.
      destruct (Z.leb_spec (prev + wait) t); [lia|]. simpl. now rewrite Hl, Hc. }
    rewrite Eo. rewrite last_cons_default.
    destruct (IH t (mkRState t (Some (t + wait)) true true (calls s)) Hr eq_refl eq_refl eq_refl)
      as (A & B & C & D).
    repeat split; auto.
Qed.

(** C7 (amended): what a resize does after [renderChart] is
    [Plotly.Plots.resize('evolution-chart')] and nothing else: every call
    to the charting library that resize events and the passing of time
    add after [renderChart] is that resize, never a new plot with
    rebuilt traces and annotations.  With the one listener installed by
    the first render, a burst of events, each less than 250 ms after the
    previous one, adds no call during the burst nor before 250 ms have
    passed after its last event, and exactly one such call from then on. *)
Theorem resize_after_render (d : Dataset) (s : RState) :
  (forall ts t, exists l,
     calls (advance t (run_events ts (renderChart d s)))
       = calls (renderChart d s) ++ l /\ only_resizes l) /\
  (forall t0 ts, listening s = false -> timeout s = None -> burst t0 ts = true ->
     calls (run_events (t0 :: ts) (renderChart d s)) = calls (renderChart d s) /\
     (forall t, t < List.last ts t0 + wait ->
        calls (advance t (run_events (t0 :: ts) (renderChart d s))) = calls (renderChart d s)) /\
     (forall t, List.last ts t0 + wait <= t ->
        calls (advance t (run_events (t0 :: ts) (renderChart d s)))
          = calls (renderChart d s) ++ [PlotsResize "evolution-chart"])).
Proof.
  split.
  - intros ts t.
    destruct (run_events_calls ts (renderChart d s)) as [l1 [E1 F1]].
    destruct (advance_calls t (run_events ts (renderChart d s))) as [l2 [E2 F2]].
    exists (l1 ++ l2). split.
    + rewrite E2, E1. now rewrite app_assoc.
    + now apply Forall_app.
  - intros t0 ts Hl Hs Hb.
    assert (E0 : on_resize t0 (renderChart d s)
                 = mkRState t0 (Some (t0 + wait)) true true (calls (renderChart d s))).
    { unfold on_resize, advance, renderChart. simpl. rewrite Hs. reflexivity. }
    change (run_events (t0 :: ts) (renderChart d s))
      with (run_events ts (on_resize t0 (renderChart d s))).
    rewrite E0.
    destruct (burst_quiet t0 ts (mkRState t0 (Some (t0 + wait)) true true
                                  (calls (renderChart d s))) Hb eq_refl eq_refl eq_refl)
      as (A & B & C & D).
    set (X := run_events ts _) in *.
    split; [exact D|]. split.
    + intros t Ht. unfold advance. rewrite A.
      destruct (Z.leb_spec (List.last ts t0 + wait) t); [lia|]. cbn [calls]. exact D.
    + intros t Ht. unfold advance. rewrite A.
      destruct (Z.leb_spec (List.last ts t0 + wait) t); [|lia]. unfold resize_callback.
      cbn [chart calls]. rewrite C, D. reflexivity.
Qed.

(** C7: counterexample.  After [renderChart], a resize at time 0 and
    250 ms of waiting add [Plotly.Plots.resize('evolution-chart')] only:
    the traces and annotations are not rebuilt nor passed again. *)
Lemma resize_does_not_rebuild :
  calls (advance 250 (on_resize 0 (renderChart D_abc initialRState)))
  = [NewPlot (createChartTraces D_abc) (createDynamicAnnotations D_abc);
     PlotsResize "evolution-chart"].
Proof. reflexivity. Qed.

(* ================================================================= *)
(** ** C9: the builders write only to objects they allocate *)

Lemma fresh_lookup (h : heap) : h !! fresh (dom h) = None.
Proof. apply not_elem_of_dom. apply is_fresh. Qed.

Lemma keeps_ret h0 {A} (a : A) (Q : A -> Prop) : Q a -> keeps h0 (ret a) Q.
Proof. intros Ha h Hh. now split. Qed.

Lemma keeps_throw h0 {A} e (Q : A -> Prop) : keeps h0 (throw e) Q.
Proof. intros h Hh. now split. Qed.

Lemma keeps_bind h0 {A B} (m : M A) (k : A -> M B) Q :
  keeps h0 m (fun a => keeps h0 (k a) Q) -> keeps h0 (bind m k) Q.
Proof.
  intros Hm h Hh. unfold bind. destruct (Hm h Hh) as [H1 H2].
  destruct (m h) as [[a|e] h']; simpl in *.
  - now apply H2.
  - now split.
Qed.

Lemma keeps_conseq h0 {A} (m : M A) (P Q : A -> Prop) :
  keeps h0 m P -> (forall a, P a -> Q a) -> keeps h0 m Q.
Proof.
  intros Hm HPQ h Hh. destruct (Hm h Hh) as [H1 H2]. split; [exact H1|].
  destruct (fst (m h)); auto.
Qed.

Lemma keeps_alloc h0 o (Q : loc -> Prop) :
  (forall l, h0 !! l = None -> Q l) -> keeps h0 (alloc o) Q.
Proof.
  intros HQ h Hh. unfold alloc. simpl.
  assert (Hn : h0 !! fresh (dom h) = None).
  { destruct (h0 !! fresh (dom h)) eqn:E; [|reflexivity].
    pose proof (lookup_weaken _ _ _ _ E Hh) as E'. now rewrite fresh_lookup in E'. }
  split; [now apply insert_subseteq_r|]. now apply HQ.
Qed.

Lemma keeps_read h0 l (Q : hobj -> Prop) : (forall o, Q o) -> keeps h0 (read l) Q.
Proof. intros HQ h Hh. unfold read. destruct (h !! l); simpl; auto. Qed.

Lemma keeps_write h0 l o (Q : unit -> Prop) :
  h0 !! l = None -> Q tt -> keeps h0 (write l o) Q.
Proof. intros Hl HQ h Hh. unfold write. simpl. split; [now apply insert_subseteq_r|exact HQ]. Qed.

Lemma keeps_mapM h0 {A B} (f : A -> M B) (l : list A) (Q : list B -> Prop) :
  (forall x, keeps h0 (f x) (fun _ => True)) -> (forall ys, Q ys) -> keeps h0 (mapM f l) Q.
Proof.
  intros Hf. revert Q. induction l as [|x r IH]; intros Q HQ; simpl.
  - now apply keeps_ret.
  - apply keeps_bind. eapply keeps_conseq; [apply Hf|]. intros y _.
    apply keeps_bind. apply IH. intros ys. now apply keeps_ret.
Qed.

Lemma keeps_forEach h0 {A} (f : nat -> A -> M unit) (l : list A) i (Q : unit -> Prop) :
  (forall j x, keeps h0 (f j x) (fun _ => True)) -> Q tt -> keeps h0 (forEach_from i f l) Q.
Proof.
  intros Hf HQ. revert i. induction l as [|x r IH]; intros i; simpl.
  - now apply keeps_ret.
  - apply keeps_bind. eapply keeps_conseq; [apply Hf|]. intros [] _. apply IH.
Qed.

Ltac keeps_step t :=
  match goal with
  | |- forall _, _ => intros
  | |- True => exact I
  | |- keeps _ (bind _ _) _ => apply keeps_bind
  | |- keeps _ (ret _) _ => apply keeps_ret
  | |- keeps _ (throw _) _ => apply keeps_throw
  | |- keeps _ (alloc _) _ => apply keeps_alloc
  | |- keeps _ (read _) _ => apply keeps_read
  | |- keeps _ (write _ _) _ => apply keeps_write; [assumption|]
  | |- keeps _ (mapM _ _) _ => apply keeps_mapM
  | |- keeps _ (forEach_from _ _ _) _ => apply keeps_forEach
  | |- keeps _ (match ?x with _ => _ end) _ => destruct x
  | |- keeps _ _ _ => t
  end.

Ltac keeps_tac_with t := repeat (keeps_step t; cbv beta zeta); auto.
Ltac keeps_tac := keeps_tac_with fail.

Lemma keeps_get h0 v k (Q : hval -> Prop) : (forall a, Q a) -> keeps h0 (HeapModel.get v k) Q.
Proof. intros HQ. unfold HeapModel.get. keeps_tac. Qed.

Lemma keeps_elements h0 l (Q : list hval -> Prop) : (forall a, Q a) -> keeps h0 (elements l) Q.
Proof. intros HQ. unfold elements. keeps_tac. Qed.

Lemma keeps_object_entries_h h0 v (Q : loc -> Prop) :
  (forall a, Q a) -> keeps h0 (object_entries_h v) Q.
Proof. intros HQ. unfold object_entries_h, entries_of. keeps_tac. Qed.

Lemma keeps_reduce_sum h0 v (Q : hval -> Prop) : (forall a, Q a) -> keeps h0 (reduce_sum v) Q.
Proof. intros HQ. unfold reduce_sum, as_number. keeps_tac. Qed.

Lemma keeps_total_entry h0 v (Q : hval -> Prop) : (forall a, Q a) -> keeps h0 (total_entry v) Q.
Proof.
  intros HQ. unfold total_entry.
  keeps_tac_with ltac:(first [apply keeps_get | apply keeps_reduce_sum]).
Qed.

Lemma keeps_sort_by_total h0 arr (Q : unit -> Prop) :
  h0 !! arr = None -> Q tt -> keeps h0 (sort_by_total arr) Q.
Proof.
  intros Ha HQ. unfold sort_by_total, as_number.
  keeps_tac_with ltac:(first [apply keeps_get | apply keeps_elements]).
Qed.

Lemma keeps_push h0 arr v (Q : unit -> Prop) :
  h0 !! arr = None -> Q tt -> keeps h0 (push arr v) Q.
Proof. intros Ha HQ. unfold push. keeps_tac_with ltac:(apply keeps_elements). Qed.

Lemma keeps_trace_step h0 data traces i ct (Q : unit -> Prop) :
  h0 !! traces = None -> Q tt -> keeps h0 (trace_step data traces i ct) Q.
Proof.
  intros Ha HQ. unfold trace_step, as_string.
  keeps_tac_with ltac:(first [apply keeps_get | apply keeps_push; [assumption|]]).
Qed.

Lemma createChartTraces_h_keeps h0 data : keeps h0 (createChartTraces_h data) (fun _ => True).
Proof.
  unfold createChartTraces_h.
  keeps_tac_with ltac:(first [apply keeps_get | apply keeps_elements
                             | apply keeps_object_entries_h | apply keeps_total_entry
                             | apply keeps_sort_by_total; [assumption|]
                             | apply keeps_trace_step; [assumption|]]).
Qed.

Lemma keeps_getCategoryValue_h h0 data name year (Q : hval -> Prop) :
  (forall a, Q a) -> keeps h0 (getCategoryValue_h data name year) Q.
Proof.
  intros HQ. unfold getCategoryValue_h, index_of_h.
  keeps_tac_with ltac:(apply keeps_get).
Qed.

Lemma keeps_annotation_step h0 data anns name year text color (Q : unit -> Prop) :
  h0 !! anns = None -> Q tt -> keeps h0 (annotation_step data anns name year text color) Q.
Proof.
  intros Ha HQ. unfold annotation_step, greater_than_zero.
  keeps_tac_with ltac:(first [apply keeps_getCategoryValue_h | apply keeps_push; [assumption|]]).
Qed.

Lemma createDynamicAnnotations_h_keeps h0 data :
  keeps h0 (createDynamicAnnotations_h data) (fun _ => True).
Proof.
  unfold createDynamicAnnotations_h.
  keeps_tac_with ltac:(apply keeps_annotation_step; [assumption|]).
Qed.

Lemma traverse_weaken {A B} (f g : A -> option B) (l : list A) (ys : list B) :
  (forall x y, f x = Some y -> g x = Some y) -> traverse f l = Some ys -> traverse g l = Some ys.
Proof.
  intros Hfg. revert ys. induction l as [|x r IH]; intros ys; simpl; [auto|].
  destruct (f x) as [y|] eqn:Ex; [|discriminate].
  destruct (traverse f r) as [zs|] eqn:Er; [|discriminate].
  rewrite (Hfg _ _ Ex), (IH zs eq_refl). auto.
Qed.

Lemma deep_heap_mono n h h' v j : h ⊆ h' -> deep n h v = Some j -> deep n h' v = Some j.
Proof.
  intros Hh. revert v j. induction n as [|n IH]; intros v j Hd; destruct v; simpl in *;
    auto; try discriminate.
  destruct (h !! l) as [o|] eqn:El; [|discriminate].
  assert (El' : h' !! l = Some o) by (eapply lookup_weaken; eauto).
  destruct (h' !! l) as [o'|] eqn:E'; [|discriminate]. injection El' as ->.
  destruct o as [vs|ps].
  - destruct (traverse (deep n h) vs) as [js|] eqn:Et; [|discriminate]. simpl.
    rewrite (traverse_weaken _ _ _ _ (IH) Et). auto.
  - destruct (traverse (fun p => option_map (pair (fst p)) (deep n h (snd p))) ps)
      as [qs|] eqn:Et; [|discriminate]. simpl.
    assert (Hf : forall (p : string * hval) y,
                   option_map (pair (fst p)) (deep n h (snd p)) = Some y ->
                             option_map (pair (fst p)) (deep n h' (snd p)) = Some y).
    { intros p y E. destruct (deep n h (snd p)) eqn:Ep; [|discriminate].
      rewrite (IH _ _ Ep). exact E. }
    rewrite (traverse_weaken _ _ _ _ Hf Et). exact Hd.
Qed.

(** C9: whatever the heap and the value passed as [data],
    [createChartTraces] and [createDynamicAnnotations] leave every object
    that existed before the call as it was (they write only to the arrays
    they allocate: the sorted [categoryTotals] and the result), so the
    dataset reads the same, to any depth, after either call. *)
Theorem builders_frame (data : hval) (h0 : heap) :
  h0 ⊆ snd (createChartTraces_h data h0) /\
  h0 ⊆ snd (createDynamicAnnotations_h data h0) /\
  (forall n j, deep n h0 data = Some j ->
     deep n (snd (createChartTraces_h data h0)) data = Some j /\
     deep n (snd (createDynamicAnnotations_h data h0)) data = Some j).
Proof.
  assert (H1 : h0 ⊆ snd (createChartTraces_h data h0))
    by exact (proj1 (createChartTraces_h_keeps h0 data h0 (reflexivity _))).
  assert (H2 : h0 ⊆ snd (createDynamicAnnotations_h data h0))
    by exact (proj1 (createDynamicAnnotations_h_keeps h0 data h0 (reflexivity _))).
  split; [exact H1|]. split; [exact H2|].
  intros n j Hd. split; eapply deep_heap_mono; eauto.
Qed.

(* ================================================================= *)
(** ** C6: the heap builders compute the pure ones *)

Lemma traverse_Forall2 {A B} (f : A -> option B) (l : list A) (ys : list B) :
  traverse f l = Some ys <-> Forall2 (fun x y => f x = Some y) l ys.
Proof.
  revert ys. induction l as [|x r IH]; intros ys; simpl.
  - split; [intros H; injection H as <-; constructor|intros H; inversion H; reflexivity].
  - split.
    + destruct (f x) eqn:Ex; [|discriminate]. destruct (traverse f r) eqn:Er; [|discriminate].
      intros H; injection H as <-. constructor; [exact Ex|]. now apply IH.
    + intros H; inversion H as [|? y ? ys' Hx Hr]; subst. rewrite Hx.
      apply IH in Hr. now rewrite Hr.
Qed.

Lemma deep_fuel_mono n m h v j : (n <= m)%nat -> deep n h v = Some j -> deep m h v = Some j.
Proof.
  revert m v j. induction n as [|n IH]; intros m v j Hnm Hd.
  - destruct v; destruct m; simpl in *; try discriminate; auto.
  - destruct v; try (destruct m; exact Hd).
    destruct m as [|m]; [lia|]. simpl in *.
    destruct (h !! l) as [[vs|ps]|]; [| |discriminate].
    + destruct (traverse (deep n h) vs) as [js|] eqn:Et; [|discriminate].
      rewrite (traverse_weaken _ (deep m h) _ _ (fun x y E => IH m x y ltac:(lia) E) Et).
      exact Hd.
    + destruct (traverse (fun p => option_map (pair (fst p)) (deep n h (snd p))) ps)
        as [qs|] eqn:Et; [|discriminate].
      assert (Hf : forall (p : string * hval) y,
                 option_map (pair (fst p)) (deep n h (snd p)) = Some y ->
                 option_map (pair (fst p)) (deep m h (snd p)) = Some y).
      { intros p y E. destruct (deep n h (snd p)) eqn:Ep; [|discriminate].
        rewrite (IH m _ _ ltac:(lia) Ep). exact E. }
      rewrite (traverse_weaken _ _ _ _ Hf Et). exact Hd.
Qed.

Lemma rep_heap_mono h h' v j : h ⊆ h' -> rep h v j -> rep h' v j.
Proof. intros Hh [n Hn]. exists n. now apply (deep_heap_mono n h h'). Qed.

Lemma rep_prim h v j :
  match v with HRef _ => False | _ => True end -> deep 0 h v = Some j -> rep h v j.
Proof. intros _ H. now exists 0%nat. Qed.

Lemma Forall2_rep_fuel h vs js :
  Forall2 (rep h) vs js -> exists n, Forall2 (fun v j => deep n h v = Some j) vs js.
Proof.
  intros H. induction H as [|v j vs js [n Hn] _ [m Hm]].
  - exists 0%nat. constructor.
  - exists (Nat.max n m). constructor.
    + eapply deep_fuel_mono; [|exact Hn]. lia.
    + eapply Forall2_impl; [exact Hm|]. intros x y E. eapply deep_fuel_mono; [|exact E]. lia.
Qed.

Lemma Forall2_keyrep_fuel h (ps : list (string * hval)) (qs : list (string * jvalue)) :
  Forall2 (fun p q => fst p = fst q /\ rep h (snd p) (snd q)) ps qs ->
  exists n, Forall2 (fun p q => option_map (pair (fst p)) (deep n h (snd p)) = Some q) ps qs.
Proof.
  intros H. induction H as [|[k v] [k' j] ps qs [Hk [n Hn]] _ [m Hm]]; simpl in *.
  - exists 0%nat. constructor.
  - subst k'. exists (Nat.max n m). constructor.
    + simpl. rewrite (deep_fuel_mono n (Nat.max n m) h v j ltac:(lia) Hn). reflexivity.
    + eapply Forall2_impl; [exact Hm|]. intros [k2 x] q E. simpl in *.
      destruct (deep m h x) eqn:Ex; [|discriminate].
      rewrite (deep_fuel_mono m (Nat.max n m) h x _ ltac:(lia) Ex). exact E.
Qed.

Lemma rep_arr h l vs js :
  h !! l = Some (HArr vs) -> Forall2 (rep h) vs js -> rep h (HRef l) (JArr js).
Proof.
  intros Hl Hf. destruct (Forall2_rep_fuel h vs js Hf) as [n Hn].
  exists (S n). simpl. rewrite Hl. apply traverse_Forall2 in Hn. now rewrite Hn.
Qed.

Lemma rep_obj h l ps qs :
  h !! l = Some (HObj ps) ->
  Forall2 (fun p q => fst p = fst q /\ rep h (snd p) (snd q)) ps qs ->
  rep h (HRef l) (JObj qs).
Proof.
  intros Hl Hf. destruct (Forall2_keyrep_fuel h ps qs Hf) as [n Hn].
  exists (S n). simpl. rewrite Hl. apply traverse_Forall2 in Hn. now rewrite Hn.
Qed.

Lemma rep_inv h v j : rep h v j -> rep_shape h v j.
Proof.
  intros [n Hn]. destruct v; destruct n; simpl in Hn; try discriminate;
    try (injection Hn as <-; reflexivity).
  destruct (h !! l) as [[vs|ps]|] eqn:El; [| |discriminate].
  - destruct (traverse (deep n h) vs) as [js|] eqn:Et; [|discriminate].
    injection Hn as <-. simpl. exists l, vs. split; [reflexivity|]. split; [exact El|].
    apply traverse_Forall2 in Et. eapply Forall2_impl; [exact Et|]. intros x y E.
    now exists n.
  - destruct (traverse (fun p => option_map (pair (fst p)) (deep n h (snd p))) ps)
      as [qs|] eqn:Et; [|discriminate].
    injection Hn as <-. simpl. exists l, ps. split; [reflexivity|]. split; [exact El|].
    apply traverse_Forall2 in Et. eapply Forall2_impl; [exact Et|]. intros [k x] q E.
    simpl in E. destruct (deep n h x) eqn:Ex; [|discriminate]. injection E as <-.
    simpl. split; [reflexivity|]. now exists n.
Qed.

Lemma rep_truthy h v j : rep h v j -> htruthy v = truthy j.
Proof.
  intros H. apply rep_inv in H. destruct j; simpl in H;
    try (subst; reflexivity);
    destruct H as (l & x & -> & _); reflexivity.
Qed.

Lemma Forall2_nth_error {A B} (R : A -> B -> Prop) l1 l2 n :
  Forall2 R l1 l2 ->
  match nth_error l1 n, nth_error l2 n with
  | Some a, Some b => R a b | None, None => True | _, _ => False
  end.
Proof.
  intros H. revert n. induction H as [|a b l1 l2 Hab _ IH]; intros [|n].
  - exact I.
  - exact I.
  - exact Hab.
  - exact (IH n).
Qed.

Lemma own_get_Forall2 {A B} (R : A -> B -> Prop) (ps : list (string * A))
    (qs : list (string * B)) k :
  Forall2 (fun p q => fst p = fst q /\ R (snd p) (snd q)) ps qs ->
  match own_get ps k, own_get qs k with
  | Some a, Some b => R a b | None, None => True | _, _ => False
  end.
Proof.
  intros H. unfold own_get. induction H as [|[k1 a] [k2 b] ps qs [Hk Hab] _ IH]; simpl in *; auto.
  subst k2. destruct (String.eqb k1 k); auto.
Qed.

Lemma rep_proto h p k :
  rep h (or_undef (hproto_get p k)) (match proto_get p k with Some y => y | None => JUndef end).
Proof.
  unfold hproto_get, proto_get. destruct existsb; exists 0%nat; reflexivity.
Qed.

Lemma read_at h l o : h !! l = Some o -> read l h = (Ok o, h).
Proof. intros E. unfold read. now rewrite E. Qed.

Lemma bind_ok {A B} (m : M A) (k : A -> M B) h a h' :
  m h = (Ok a, h') -> bind m k h = k a h'.
Proof. intros E. unfold bind. now rewrite E. Qed.

(** [get] on a value that reads as [j] returns what [js_get] gives. *)
Lemma get_rep hb h v j k :
  rep hb v j -> nullish j = false -> hb ⊆ h ->
  exists x, HeapModel.get v k h = (Ok x, h) /\ rep hb x (js_prop j k).
Proof.
  intros Hr Hn Hh. pose proof (rep_inv _ _ _ Hr) as Hs. unfold js_prop.
  destruct j; simpl in Hn, Hs; try discriminate; subst.
  - eexists; split; [reflexivity|]. apply rep_proto.
  - eexists; split; [reflexivity|]. apply rep_proto.
  - eexists; split; [reflexivity|]. simpl.
    destruct (array_index k) as [i|].
    + destruct (String.get (Z.to_nat i) s); exists 0%nat; reflexivity.
    + destruct (String.eqb k "length"); [exists 0%nat; reflexivity|apply rep_proto].
  - destruct Hs as (l & vs' & -> & Hl & Hf).
    eexists; split.
    + unfold HeapModel.get. rewrite (bind_ok _ _ _ _ _ (read_at _ _ _ (lookup_weaken _ _ _ _ Hl Hh))).
      reflexivity.
    + simpl. destruct (array_index k) as [i|].
      * pose proof (Forall2_nth_error _ _ _ (Z.to_nat i) Hf) as Hi.
        destruct (nth_error vs' (Z.to_nat i)), (nth_error vs (Z.to_nat i)); simpl;
          try contradiction; auto. exists 0%nat; reflexivity.
      * rewrite (Forall2_length _ _ _ Hf).
        destruct (String.eqb k "length"); [exists 0%nat; reflexivity|apply rep_proto].
  - destruct Hs as (l & ps' & -> & Hl & Hf).
    eexists; split.
    + unfold HeapModel.get. rewrite (bind_ok _ _ _ _ _ (read_at _ _ _ (lookup_weaken _ _ _ _ Hl Hh))).
      reflexivity.
    + simpl. pose proof (own_get_Forall2 _ _ _ k Hf) as Hk.
      destruct (own_get ps' k), (own_get ps k); try contradiction; auto. apply rep_proto.
  - eexists; split; [reflexivity|]. apply rep_proto.
Qed.

Lemma insert_by_Forall2 {A B} (cA : A -> A -> Z) (cB : B -> B -> Z) (R : A -> B -> Prop)
    x y l1 l2 :
  (forall a a' b b', R a b -> R a' b' -> cA a a' = cB b b') ->
  R x y -> Forall2 R l1 l2 -> Forall2 R (insert_by cA x l1) (insert_by cB y l2).
Proof.
  intros Hc Hxy H. induction H as [|a b l1 l2 Hab Hl IH]; simpl.
  - repeat constructor; auto.
  - rewrite (Hc x a y b Hxy Hab). destruct (cB y b <? 0).
    + repeat constructor; auto.
    + constructor; auto.
Qed.

Lemma sort_by_Forall2 {A B} (cA : A -> A -> Z) (cB : B -> B -> Z) (R : A -> B -> Prop) l1 l2 :
  (forall a a' b b', R a b -> R a' b' -> cA a a' = cB b b') ->
  Forall2 R l1 l2 -> Forall2 R (sort_by cA l1) (sort_by cB l2).
Proof.
  intros Hc H. unfold sort_by.
  assert (G : forall acc1 acc2, Forall2 R acc1 acc2 ->
            Forall2 R (fold_left (fun acc x => insert_by cA x acc) l1 acc1)
                      (fold_left (fun acc x => insert_by cB x acc) l2 acc2)).
  { induction H as [|a b l1 l2 Hab Hl IH]; intros acc1 acc2 Hacc; simpl; auto.
    apply IH. now apply insert_by_Forall2. }
  apply G. constructor.
Qed.

Lemma filter_Forall2 {A B} (f : A -> bool) (g : B -> bool) (R : A -> B -> Prop) l1 l2 :
  (forall a b, R a b -> f a = g b) ->
  Forall2 R l1 l2 -> Forall2 R (List.filter f l1) (List.filter g l2).
Proof.
  intros Hfg H. induction H as [|a b l1 l2 Hab Hl IH]; simpl; auto.
  rewrite (Hfg a b Hab). destruct (g b); auto.
Qed.

Lemma own_keys_order_Forall2 {A B} (R : A -> B -> Prop) ps qs :
  Forall2 (keyrel R) ps qs -> Forall2 (keyrel R) (own_keys_order ps) (own_keys_order qs).
Proof.
  intros H. unfold own_keys_order. apply Forall2_app.
  - apply sort_by_Forall2.
    + intros a a' b b' [Ha _] [Ha' _]. now rewrite Ha, Ha'.
    + apply filter_Forall2; [|exact H]. intros a b [Hab _]. now rewrite Hab.
  - apply filter_Forall2; [|exact H]. intros a b [Hab _]. now rewrite Hab.
Qed.

Lemma js_prop_categories d :
  js_prop (dataset_json d) "categories"
  = JObj (map (fun p => (fst p, zs_json (snd p))) (categories d)).
Proof. reflexivity. Qed.

Lemma js_prop_years d : js_prop (dataset_json d) "years" = zs_json (years d).
Proof. reflexivity. Qed.

Lemma js_prop_markers d :
  js_prop (dataset_json d) "markers" = match markers d with Some m => m | None => JUndef end.
Proof. unfold dataset_json. destruct (markers d); reflexivity. Qed.

Lemma rep_zs h v zs :
  rep h v (zs_json zs) -> exists l, v = HRef l /\ h !! l = Some (HArr (map HNum zs)).
Proof.
  intros Hr. apply rep_inv in Hr. destruct Hr as (l & vs & -> & Hl & Hf).
  exists l. split; [reflexivity|]. rewrite Hl. f_equal. f_equal. clear Hl.
  revert vs Hf. induction zs as [|z zs IH]; intros vs Hf; inversion Hf as [|v j vs' js Hv Hr]; subst.
  - reflexivity.
  - apply rep_inv in Hv. simpl in Hv. subst. simpl. f_equal. now apply IH.
Qed.

Lemma mapM_as_number h zs : mapM as_number (map HNum zs) h = (Ok zs, h).
Proof.
  induction zs as [|z zs IH]; [reflexivity|]. cbn [map mapM].
  unfold bind at 1. simpl. unfold bind. rewrite IH. reflexivity.
Qed.

Lemma alloc_run (o : hobj) (h : heap) : alloc o h = (Ok (fresh (dom h)), <[fresh (dom h) := o]> h).
Proof. reflexivity. Qed.

Lemma alloc_subseteq (o : hobj) (h : heap) : h ⊆ <[fresh (dom h) := o]> h.
Proof. apply insert_subseteq, fresh_lookup. Qed.

Lemma fresh_ne (h : heap) l o : h !! l = Some o -> fresh (dom h) <> l.
Proof. intros Hl E. rewrite <- E, fresh_lookup in Hl. discriminate. Qed.

Lemma mapM_pairs (es : list (string * hval)) h :
  exists ls h', mapM (fun '(k, x) => alloc (HArr [HStr k; x])) es h = (Ok ls, h') /\
    h ⊆ h' /\ Forall2 (fun e l => h' !! l = Some (HArr [HStr (fst e); snd e])) es ls.
Proof.
  revert h. induction es as [|[k x] es IH]; intros h.
  - exists [], h. split; [reflexivity|]. split; [reflexivity|constructor].
  - set (l := fresh (dom h)). set (h1 := <[l := HArr [HStr k; x]]> h).
    destruct (IH h1) as (ls & h' & E & Hs & Hf).
    exists (l :: ls), h'. cbn [mapM]. split.
    + unfold bind at 1. rewrite alloc_run. fold l. fold h1.
      unfold bind. rewrite E. reflexivity.
    + split.
      * etransitivity; [apply alloc_subseteq|exact Hs].
      * constructor; [|exact Hf]. simpl. eapply lookup_weaken; [|exact Hs].
        unfold h1. now rewrite lookup_insert_eq.
Qed.

Lemma alloc_lookup (h : heap) o l x :
  h !! l = Some x -> (<[fresh (dom h) := o]> h) !! l = Some x.
Proof. intros E. eapply lookup_weaken; [exact E|apply alloc_subseteq]. Qed.

Lemma subseteq_delete (hb h : heap) t : hb ⊆ h -> hb !! t = None -> hb ⊆ delete t h.
Proof.
  intros Hs Ht. apply map_subseteq_spec. intros i x Hi.
  destruct (decide (t = i)) as [->|Hne]; [congruence|].
  rewrite lookup_delete_ne by exact Hne. eapply lookup_weaken; eauto.
Qed.

Lemma get_obj h l ps k x :
  h !! l = Some (HObj ps) -> own_get ps k = Some x -> HeapModel.get (HRef l) k h = (Ok x, h).
Proof.
  intros Hl Hk. unfold HeapModel.get. rewrite (bind_ok _ _ _ _ _ (read_at _ _ _ Hl)).
  unfold ret. now rewrite Hk.
Qed.

Lemma get_obj_any h l ps k :
  h !! l = Some (HObj ps) ->
  HeapModel.get (HRef l) k h
  = (Ok (match own_get ps k with Some x => x | None => or_undef (hproto_get ObjectProto k) end), h).
Proof.
  intros Hl. unfold HeapModel.get. rewrite (bind_ok _ _ _ _ _ (read_at _ _ _ Hl)). reflexivity.
Qed.

Lemma get_arr h l vs k i :
  h !! l = Some (HArr vs) -> array_index k = Some i ->
  HeapModel.get (HRef l) k h = (Ok (or_undef (nth_error vs (Z.to_nat i))), h).
Proof.
  intros Hl Hk. unfold HeapModel.get. rewrite (bind_ok _ _ _ _ _ (read_at _ _ _ Hl)).
  unfold ret. now rewrite Hk.
Qed.

Lemma elements_at h l vs : h !! l = Some (HArr vs) -> elements l h = (Ok vs, h).
Proof. intros Hl. unfold elements. now rewrite (bind_ok _ _ _ _ _ (read_at _ _ _ Hl)). Qed.

Lemma Forall2_map_r {A B C} (P : A -> C -> Prop) (f : B -> C) l1 l2 :
  Forall2 P l1 (map f l2) -> Forall2 (fun a b => P a (f b)) l1 l2.
Proof.
  revert l1. induction l2 as [|b l2 IH]; intros l1 H; inversion H; subst; constructor; auto.
Qed.

Lemma Forall2_zip {A B C} (P : A -> B -> Prop) (Q : A -> C -> Prop) l1 l2 l3 :
  Forall2 P l1 l2 -> Forall2 Q l1 l3 -> Forall2 (fun b c => exists a, P a b /\ Q a c) l2 l3.
Proof.
  intros H. revert l3. induction H as [|a b l1 l2 Hab _ IH]; intros l3 H3;
    inversion H3 as [|? c ? l3' Hac Hr]; subst; constructor; eauto.
Qed.

Ltac step E := rewrite (bind_ok _ _ _ _ _ E); cbv beta.

Lemma ct_at_mono h h' hb o ct : h ⊆ h' -> ct_at h hb o ct -> ct_at h' hb o ct.
Proof. intros Hs (x & Hx & Hr). exists x. split; [eapply lookup_weaken; eauto|exact Hr]. Qed.

Lemma ct_at_insert_arr h hb l vs vs' o ct :
  h !! l = Some (HArr vs) -> ct_at h hb o ct -> ct_at (<[l := HArr vs']> h) hb o ct.
Proof.
  intros Hl (x & Hx & Hr). exists x. split; [|exact Hr].
  rewrite lookup_insert_ne; [exact Hx|]. intros ->. congruence.
Qed.

Lemma reduce_sum_run hb h x zs :
  hb ⊆ h -> rep hb x (zs_json zs) -> reduce_sum x h = (Ok (HNum (sum_values zs)), h).
Proof.
  intros Hs Hr. destruct (rep_zs _ _ _ Hr) as (l & -> & Hl).
  unfold reduce_sum. step (read_at _ _ _ (lookup_weaken _ _ _ _ Hl Hs)).
  step (mapM_as_number h zs). reflexivity.
Qed.

Lemma total_entry_run hb h l (c : string * list Z) x :
  hb ⊆ h -> h !! l = Some (HArr [HStr (fst c); x]) -> rep hb x (zs_json (snd c)) ->
  total_entry (HRef l) h
  = (Ok (HRef (fresh (dom h))),
     <[fresh (dom h) := HObj [("name", HStr (fst c)); ("values", x);
                              ("total", HNum (sum_values (snd c)))]]> h).
Proof.
  intros Hs Hl Hr. unfold total_entry.
  step (get_arr h l _ "0" 0 Hl eq_refl).
  step (get_arr h l _ "1" 1 Hl eq_refl).
  step (reduce_sum_run hb h x (snd c) Hs Hr).
  step (alloc_run (HObj [("name", HStr (fst c)); ("values", x);
                         ("total", HNum (sum_values (snd c)))]) h).
  reflexivity.
Qed.

Lemma mapM_total_entry hb ls cs : forall h,
  hb ⊆ h ->
  Forall2 (fun l c => exists x, h !! l = Some (HArr [HStr (fst c); x]) /\
                                rep hb x (zs_json (snd c))) ls cs ->
  exists os h', mapM total_entry (map HRef ls) h = (Ok (map HRef os), h') /\
    h ⊆ h' /\ Forall2 (ct_at h' hb) os (map mk_total cs).
Proof.
  revert cs. induction ls as [|l ls IH]; intros cs h Hs Hf;
    inversion Hf as [|? c ? cs' (x & Hl & Hr) Hrest]; subst.
  - exists [], h. split; [reflexivity|]. split; [reflexivity|constructor].
  - set (o := fresh (dom h)).
    set (h1 := <[o := HObj [("name", HStr (fst c)); ("values", x);
                            ("total", HNum (sum_values (snd c)))]]> h).
    assert (Hs1 : h ⊆ h1) by apply alloc_subseteq.
    destruct (IH cs' h1 ltac:(etransitivity; eauto)
               ltac:(eapply Forall2_impl; [exact Hrest|];
                     intros l' c' (x' & Hl' & Hr'); exists x'; split;
                     [eapply lookup_weaken; eauto|exact Hr']))
      as (os & h' & E & Hs' & Hf').
    exists (o :: os), h'. cbn [map mapM].
    split.
    + step (total_entry_run hb h l c x Hs Hl Hr). fold o. fold h1. step E. reflexivity.
    + split; [etransitivity; eauto|]. constructor; [|exact Hf'].
      exists x. split; [|exact Hr]. eapply lookup_weaken; [|exact Hs'].
      unfold h1. rewrite lookup_insert_eq. destruct c; reflexivity.
Qed.

Lemma object_entries_h_run h lc ps :
  h !! lc = Some (HObj ps) ->
  exists le ls h', object_entries_h (HRef lc) h = (Ok le, h') /\ h ⊆ h' /\
    h' !! le = Some (HArr (map HRef ls)) /\
    Forall2 (fun e l => h' !! l = Some (HArr [HStr (fst e); snd e])) (own_keys_order ps) ls.
Proof.
  intros Hl. destruct (mapM_pairs (own_keys_order ps) h) as (ls & h1 & E & Hs & Hf).
  exists (fresh (dom h1)), ls, (<[fresh (dom h1) := HArr (map HRef ls)]> h1).
  split.
  - assert (Ee : entries_of (HRef lc) h = (Ok (own_keys_order ps), h)).
    { unfold entries_of. step (read_at _ _ _ Hl). reflexivity. }
    unfold object_entries_h. step Ee. step E. reflexivity.
  - split; [etransitivity; [exact Hs|apply alloc_subseteq]|].
    split; [apply lookup_insert_eq|].
    eapply Forall2_impl; [exact Hf|]. intros e l' E'. now apply alloc_lookup.
Qed.

Lemma keyed_extract (P : loc -> CategoryTotal -> Prop) keyed cts :
  Forall2 (fun kv ct => exists o, kv = (HRef o, ct_total ct) /\ P o ct) keyed cts ->
  exists os, map fst keyed = map HRef os /\ Forall2 P os cts.
Proof.
  intros H. induction H as [|kv ct keyed cts (o & -> & Ho) _ (os & E & Hf)].
  - exists []. split; [reflexivity|constructor].
  - exists (o :: os). simpl. rewrite E. split; [reflexivity|]. now constructor.
Qed.

Lemma sort_by_total_run hb h lct os cts :
  h !! lct = Some (HArr (map HRef os)) -> Forall2 (ct_at h hb) os cts ->
  exists os', sort_by_total lct h = (Ok tt, <[lct := HArr (map HRef os')]> h) /\
    Forall2 (ct_at h hb) os' (sort_by (fun a b => ct_total b - ct_total a) cts).
Proof.
  intros Hl Hf. unfold sort_by_total. step (elements_at _ _ _ Hl).
  match goal with |- context [mapM ?f _] => set (F := f) end.
  assert (Hk : forall os cts, Forall2 (ct_at h hb) os cts ->
             exists keyed, mapM F (map HRef os) h = (Ok keyed, h) /\
               Forall2 (fun kv ct => exists o, kv = (HRef o, ct_total ct) /\ ct_at h hb o ct)
                       keyed cts).
  { clear Hl Hf os cts. intros os cts Hf.
    induction Hf as [|o ct os cts Ho _ (keyed & E & Hkf)].
    - exists []. split; [reflexivity|constructor].
    - exists ((HRef o, ct_total ct) :: keyed). cbn [map mapM].
      destruct Ho as (x & Hx & Hr). split.
      + assert (Eo : F (HRef o) h = (Ok (HRef o, ct_total ct), h)).
        { unfold F. step (get_obj _ _ _ "total" _ Hx eq_refl). reflexivity. }
        step Eo. step E. reflexivity.
      + constructor; [|exact Hkf]. exists o. split; [reflexivity|]. exists x. auto. }
  destruct (Hk os cts Hf) as (keyed & E & Hkf). step E.
  pose proof (sort_by_Forall2 (fun a b : hval * Z => snd b - snd a)
                (fun a b => ct_total b - ct_total a)
                (fun kv ct => exists o, kv = (HRef o, ct_total ct) /\ ct_at h hb o ct) _ _
                ltac:(intros a a' b b' (o & -> & _) (o' & -> & _); reflexivity) Hkf) as Hsort.
  destruct (keyed_extract _ _ _ Hsort) as (os' & E' & Hf').
  exists os'. split; [|exact Hf']. unfold write. now rewrite E'.
Qed.

Lemma marker_symbol_js d name :
  marker_symbol d name =
  (let jm := match markers d with Some m => m | None => JUndef end in
   if truthy jm then (if truthy (js_prop jm name) then js_prop jm name else JStr "circle")
   else JStr "circle").
Proof.
  unfold marker_symbol, js_prop. destruct (markers d) as [m|]; [|reflexivity]. cbv zeta.
  destruct (truthy m); [|reflexivity]. destruct (js_get m name); reflexivity.
Qed.

Lemma symbol_run hb h xm jm key :
  hb ⊆ h -> rep hb xm jm ->
  exists sym,
    (if htruthy xm then
       bind (HeapModel.get xm key)
            (fun m => if htruthy m then HeapModel.get xm key else ret (HStr "circle"))
     else ret (HStr "circle")) h = (Ok sym, h) /\
    rep hb sym (if truthy jm then (if truthy (js_prop jm key) then js_prop jm key
                                  else JStr "circle") else JStr "circle").
Proof.
  intros Hs Hr. rewrite (rep_truthy _ _ _ Hr). destruct (truthy jm) eqn:T.
  - assert (Hn : nullish jm = false) by (destruct jm; simpl in *; congruence).
    destruct (get_rep hb h xm jm key Hr Hn Hs) as (xs & Exs & Hxs).
    step Exs. rewrite (rep_truthy _ _ _ Hxs). destruct (truthy (js_prop jm key)).
    + exists xs. auto.
    + exists (HStr "circle"). split; [reflexivity|]. exists 0%nat; reflexivity.
  - exists (HStr "circle"). split; [reflexivity|]. exists 0%nat; reflexivity.
Qed.

(** A read of a property of the dataset object gives the same value on
    any heap that holds that object. *)
Lemma get_sub hb h data d k x :
  rep hb data (dataset_json d) -> hb ⊆ h ->
  HeapModel.get data k h = (Ok x, h) -> HeapModel.get data k hb = (Ok x, hb).
Proof.
  intros Hd Hs E. destruct (rep_inv _ _ _ Hd) as (ld & ps & -> & Hl & _).
  rewrite (get_obj_any hb ld ps k Hl).
  rewrite (get_obj_any h ld ps k (lookup_weaken _ _ _ _ Hl Hs)) in E.
  injection E as ->. reflexivity.
Qed.

Lemma as_string_str h s : as_string (HStr s) h = (Ok s, h).
Proof. reflexivity. Qed.

Ltac alloc_step l hn :=
  match goal with
  | |- context [bind (alloc ?o) _ ?h] =>
      step (alloc_run o h);
      set (l := fresh (dom h)) in *;
      set (hn := <[l := o]> h) in *
  end.

Lemma trace_step_run hb d data t acc h i o ct :
  hb ⊆ h -> hb !! t = None -> h !! t = Some (HArr acc) ->
  rep hb data (dataset_json d) -> ct_at h hb o ct ->
  exists tr h', trace_step data t i (HRef o) h = (Ok tt, h') /\
    h' !! t = Some (HArr (acc ++ [tr])) /\ delete t h ⊆ delete t h' /\ hb ⊆ h' /\
    rep (delete t h') tr (trace_json (mkTrace (years d) (ct_values ct) (ct_name ct)
                                          (color_at i) (marker_symbol d (ct_name ct)))) /\
    (exists l xy qs, tr = HRef l /\ delete t h' !! l = Some (HObj (("x", xy) :: qs)) /\
                     HeapModel.get data "years" h = (Ok xy, h)).
Proof.
  intros Hs Ht Hta Hd (x & Ho & Hx).
  assert (Hnd : nullish (dataset_json d) = false) by reflexivity.
  destruct (get_rep hb h data _ "markers" Hd Hnd Hs) as (xm & Exm & Hxm).
  destruct (get_rep hb h data _ "years" Hd Hnd Hs) as (xy & Exy & Hxy).
  rewrite js_prop_years in Hxy. rewrite js_prop_markers in Hxm.
  destruct (symbol_run hb h xm _ (ct_name ct) Hs Hxm) as (sym & Esym & Hsym).
  rewrite <- marker_symbol_js in Hsym.
  unfold trace_step.
  step (get_obj h o _ "name" (HStr (ct_name ct)) Ho eq_refl).
  step (get_obj h o _ "values" x Ho eq_refl).
  cbv zeta.
  step (as_string_str h (ct_name ct)).
  step Exm. step Esym. step Exy.
  alloc_step l1 h1. alloc_step l2 h2. alloc_step l3 h3. alloc_step l4 h4.
  assert (Ht1 : h1 !! t = Some (HArr acc)) by (apply alloc_lookup; exact Hta).
  assert (Ht2 : h2 !! t = Some (HArr acc)) by (apply alloc_lookup; exact Ht1).
  assert (Ht3 : h3 !! t = Some (HArr acc)) by (apply alloc_lookup; exact Ht2).
  assert (Ht4 : h4 !! t = Some (HArr acc)) by (apply alloc_lookup; exact Ht3).
  assert (N1 : t <> l1) by (apply not_eq_sym, (fresh_ne h t _ Hta)).
  assert (N2 : t <> l2) by (apply not_eq_sym, (fresh_ne h1 t _ Ht1)).
  assert (N3 : t <> l3) by (apply not_eq_sym, (fresh_ne h2 t _ Ht2)).
  assert (N4 : t <> l4) by (apply not_eq_sym, (fresh_ne h3 t _ Ht3)).
  assert (S1 : h ⊆ h1) by apply alloc_subseteq.
  assert (S2 : h1 ⊆ h2) by apply alloc_subseteq.
  assert (S3 : h2 ⊆ h3) by apply alloc_subseteq.
  assert (S4 : h3 ⊆ h4) by apply alloc_subseteq.
  assert (S14 : h ⊆ h4) by (etransitivity; [exact S1|]; etransitivity; [exact S2|];
                            etransitivity; [exact S3|exact S4]).
  unfold push. step (elements_at _ _ _ Ht4). unfold write.
  exists (HRef l4), (<[t := HArr (acc ++ [HRef l4])]> h4).
  split; [reflexivity|].
  split; [apply lookup_insert_eq|].
  assert (Hb4 : hb ⊆ h4) by (etransitivity; eauto).
  rewrite delete_insert_eq.
  split; [now apply delete_mono|].
  split; [now apply insert_subseteq_r|].
  split; cycle 1.
  { exists l4, xy. eexists. split; [reflexivity|]. split; [|exact Exy].
    rewrite lookup_delete_ne by exact N4. unfold h4. rewrite lookup_insert_eq. reflexivity. }
  set (hd := delete t h4).
  assert (Hbd : hb ⊆ hd) by (now apply subseteq_delete).
  assert (L1 : hd !! l1 = h4 !! l1) by (apply lookup_delete_ne; exact N1).
  assert (L2 : hd !! l2 = h4 !! l2) by (apply lookup_delete_ne; exact N2).
  assert (L3 : hd !! l3 = h4 !! l3) by (apply lookup_delete_ne; exact N3).
  assert (L4 : hd !! l4 = h4 !! l4) by (apply lookup_delete_ne; exact N4).
  assert (E1 : h4 !! l1 = Some (HObj [("width", HNum 3); ("color", HStr (color_at i));
                                      ("shape", HStr "linear")])).
  { eapply lookup_weaken; [|etransitivity; [exact S2|]; etransitivity; [exact S3|exact S4]].
    apply lookup_insert_eq. }
  assert (E2 : h4 !! l2 = Some (HObj [("width", HNum 2); ("color", HStr "#ffffff")])).
  { eapply lookup_weaken; [|etransitivity; [exact S3|exact S4]]. apply lookup_insert_eq. }
  assert (E3 : h4 !! l3 = Some (HObj [("size", HNum 10); ("color", HStr (color_at i));
                                      ("symbol", sym); ("line", HRef l2)])).
  { eapply lookup_weaken; [|exact S4]. apply lookup_insert_eq. }
  rewrite E1 in L1. rewrite E2 in L2. rewrite E3 in L3.
  unfold h4 in L4. rewrite lookup_insert_eq in L4.
  apply (rep_obj hd l4 _ _ L4).
  repeat (apply List.Forall2_cons; [split; [reflexivity|]|]); [..|apply List.Forall2_nil].
  - eapply rep_heap_mono; [exact Hbd|exact Hxy].
  - eapply rep_heap_mono; [exact Hbd|exact Hx].
  - exists 0%nat; reflexivity.
  - exists 0%nat; reflexivity.
  - exists 0%nat; reflexivity.
  - apply (rep_obj hd l1 _ _ L1).
    repeat (apply List.Forall2_cons; [split; [reflexivity|exists 0%nat; reflexivity]|]).
    apply List.Forall2_nil.
  - apply (rep_obj hd l3 _ _ L3).
    apply List.Forall2_cons; [split; [reflexivity|exists 0%nat; reflexivity]|].
    apply List.Forall2_cons; [split; [reflexivity|exists 0%nat; reflexivity]|].
    apply List.Forall2_cons; [split; [reflexivity|eapply rep_heap_mono; [exact Hbd|exact Hsym]]|].
    apply List.Forall2_cons; [split; [reflexivity|]|apply List.Forall2_nil].
    apply (rep_obj hd l2 _ _ L2).
    repeat (apply List.Forall2_cons; [split; [reflexivity|exists 0%nat; reflexivity]|]).
    apply List.Forall2_nil.
  - exists 0%nat; reflexivity.
  - exists 0%nat; reflexivity.
Qed.

Lemma ct_at_delete_mono h h1 hb t acc o ct :
  h !! t = Some (HArr acc) -> delete t h ⊆ delete t h1 -> ct_at h hb o ct -> ct_at h1 hb o ct.
Proof.
  intros Ht Hs (x & Hx & Hr). exists x. split; [|exact Hr].
  assert (Ne : t <> o) by (intros ->; congruence).
  assert (E : delete t h !! o = Some (HObj [("name", HStr (ct_name ct)); ("values", x);
                                           ("total", HNum (ct_total ct))]))
    by (rewrite lookup_delete_ne; assumption).
  pose proof (lookup_weaken _ _ _ _ E Hs) as E'. rewrite lookup_delete_ne in E' by exact Ne.
  exact E'.
Qed.

Lemma traces_loop hb d data t os cts : forall i h acc,
  hb ⊆ h -> hb !! t = None -> h !! t = Some (HArr acc) ->
  rep hb data (dataset_json d) -> Forall2 (ct_at h hb) os cts ->
  exists new h', forEach_from i (trace_step data t) (map HRef os) h = (Ok tt, h') /\
    h' !! t = Some (HArr (acc ++ new)) /\ delete t h ⊆ delete t h' /\ hb ⊆ h' /\
    Forall2 (rep (delete t h')) new (map trace_json (build_traces d i cts)) /\
    Forall (fun tr => exists l xy qs, tr = HRef l /\
                        delete t h' !! l = Some (HObj (("x", xy) :: qs)) /\
                        HeapModel.get data "years" hb = (Ok xy, hb)) new.
Proof.
  revert cts. induction os as [|o os IH]; intros cts i h acc Hs Ht Hta Hd Hf;
    inversion Hf as [|? ct ? cts' Hct Hrest]; subst.
  - exists [], h. rewrite app_nil_r. split; [reflexivity|]. split; [exact Hta|].
    split; [reflexivity|]. split; [exact Hs|]. split; constructor.
  - destruct (trace_step_run hb d data t acc h i o ct Hs Ht Hta Hd Hct)
      as (tr & h1 & E1 & Ht1 & D1 & Hs1 & Htr & (l & xy & qs & -> & Hl & Ey)).
    destruct (IH cts' (S i) h1 (acc ++ [HRef l]) Hs1 Ht Ht1 Hd
                ltac:(eapply Forall2_impl; [exact Hrest|];
                      intros o' ct'; now apply ct_at_delete_mono with (t := t) (acc := acc)))
      as (new & h2 & E2 & Ht2 & D2 & Hs2 & Hnew & Hal).
    exists (HRef l :: new), h2. cbn [map forEach_from]. split.
    + step E1. exact E2.
    + split; [rewrite <- app_assoc in Ht2; exact Ht2|].
      split; [etransitivity; eauto|]. split; [exact Hs2|]. split.
      * constructor; [eapply rep_heap_mono; [exact D2|exact Htr]|exact Hnew].
      * constructor; [|exact Hal]. exists l, xy, qs. split; [reflexivity|]. split.
        -- eapply lookup_weaken; [exact Hl|exact D2].
        -- eapply get_sub; [exact Hd|exact Hs|exact Ey].
Qed.

(** [createChartTraces] on the heap: the run, its result array and the x values of its traces. *)
Lemma createChartTraces_h_run d data h0 :
  rep h0 data (dataset_json d) ->
  exists t h1 new, createChartTraces_h data h0 = (Ok t, h1) /\ h0 ⊆ h1 /\
    h1 !! t = Some (HArr new) /\
    rep h1 (HRef t) (JArr (map trace_json (createChartTraces d))) /\
    Forall (fun tr => exists l xy qs, tr = HRef l /\
                        h1 !! l = Some (HObj (("x", xy) :: qs)) /\
                        HeapModel.get data "years" h0 = (Ok xy, h0)) new.
Proof.
  intros Hd. unfold createChartTraces_h.
  alloc_step t hA.
  assert (Ht0 : h0 !! t = None) by apply fresh_lookup.
  assert (SA : h0 ⊆ hA) by apply alloc_subseteq.
  assert (HtA : hA !! t = Some (HArr [])) by apply lookup_insert_eq.
  destruct (get_rep h0 hA data _ "categories" Hd eq_refl SA) as (cats & Ec & Hc).
  rewrite js_prop_categories in Hc. step Ec.
  destruct (rep_inv _ _ _ Hc) as (lc & ps & -> & Hlc & Hps).
  destruct (object_entries_h_run hA lc ps (lookup_weaken _ _ _ _ Hlc SA))
    as (le & ls & hB & Ee & SB & Hle & Hls).
  step Ee. step (elements_at _ _ _ Hle).
  assert (Hrel : Forall2 (keyrel (fun x zs => rep h0 x (zs_json zs)))
                         (own_keys_order ps) (own_keys_order (categories d))).
  { apply own_keys_order_Forall2. apply Forall2_map_r in Hps. exact Hps. }
  pose proof (Forall2_zip _ _ _ _ _ Hls Hrel) as Hz.
  destruct (mapM_total_entry h0 ls (own_keys_order (categories d)) hB
              ltac:(etransitivity; [exact SA|exact SB])
              ltac:(eapply Forall2_impl; [exact Hz|];
                    intros l c (e & He & Hk1 & Hk2); exists (snd e);
                    rewrite <- Hk1; split; assumption))
    as (os & hC & Et & SC & Hos).
  step Et.
  alloc_step lct hD.
  assert (SD : hC ⊆ hD) by apply alloc_subseteq.
  assert (HlctD : hD !! lct = Some (HArr (map HRef os))) by apply lookup_insert_eq.
  destruct (sort_by_total_run h0 hD lct os _ HlctD
              ltac:(eapply Forall2_impl; [exact Hos|]; intros; eapply ct_at_mono; eauto))
    as (os' & Es & Hos').
  step Es.
  set (hE := <[lct := HArr (map HRef os')]> hD).
  assert (HlctC : hC !! lct = None) by apply fresh_lookup.
  assert (S0C : h0 ⊆ hC) by (etransitivity; [exact SA|]; etransitivity; [exact SB|exact SC]).
  assert (S0E : h0 ⊆ hE).
  { apply insert_subseteq_r; [|etransitivity; eauto].
    destruct (h0 !! lct) eqn:E; [|reflexivity].
    rewrite (lookup_weaken _ _ _ _ E S0C) in HlctC. discriminate. }
  step (elements_at hE lct _ (lookup_insert_eq _ _ _)).
  assert (HtE : hE !! t = Some (HArr [])).
  { unfold hE. rewrite lookup_insert_ne.
    - eapply lookup_weaken; [exact HtA|]. etransitivity; [exact SB|].
      etransitivity; [exact SC|exact SD].
    - intros E. assert (HtC : hC !! t = Some (HArr [])).
      { eapply lookup_weaken; [exact HtA|]. etransitivity; [exact SB|exact SC]. }
      rewrite <- E in HtC. congruence. }
  destruct (traces_loop h0 d data t os' _ 0 hE [] S0E Ht0 HtE Hd
              ltac:(eapply Forall2_impl; [exact Hos'|]; intros;
                    eapply ct_at_insert_arr; [exact HlctD|eassumption]))
    as (new & hF & Ef & HtF & _ & S0F & Hnew & Hal).
  step Ef.
  exists t, hF, new. split; [reflexivity|]. split; [exact S0F|]. split; [exact HtF|].
  split; cycle 1.
  { eapply Forall_impl; [exact Hal|]. intros tr (l & xy & qs & -> & Hl & Ey).
    exists l, xy, qs. split; [reflexivity|]. split; [|exact Ey].
    apply lookup_delete_Some in Hl as [_ Hl]. exact Hl. }
  apply (rep_arr hF t new _ HtF).
  unfold createChartTraces. rewrite category_totals_eq.
  eapply Forall2_impl; [exact Hnew|]. intros v j Hv.
  eapply rep_heap_mono; [apply delete_subseteq|exact Hv].
Qed.

(** [createChartTraces] on the heap computes [Builders.createChartTraces]. *)
Lemma createChartTraces_h_refines d data h0 :
  rep h0 data (dataset_json d) ->
  exists t h1, createChartTraces_h data h0 = (Ok t, h1) /\ h0 ⊆ h1 /\
    rep h1 (HRef t) (JArr (map trace_json (createChartTraces d))).
Proof.
  intros Hd. destruct (createChartTraces_h_run d data h0 Hd) as (t & h1 & new & E & S & _ & R & _).
  exists t, h1. auto.
Qed.

Lemma nts_app f n acc r :
  nat_to_string_aux f n (String.append acc r) = String.append (nat_to_string_aux f n acc) r.
Proof.
  revert n acc. induction f as [|f IH]; intros n acc; [reflexivity|].
  cbn [nat_to_string_aux]. destruct (n <? 10)%nat; [reflexivity|].
  change (String (ascii_of_nat (48 + n mod 10)) (String.append acc r))
    with (String.append (String (ascii_of_nat (48 + n mod 10)) acc) r).
  apply IH.
Qed.

Lemma decimal_value_app s r a :
  decimal_value (String.append s r) a =
  match decimal_value s a with Some b => decimal_value r b | None => None end.
Proof.
  revert a. induction s as [|c s IH]; intros a; [reflexivity|]. simpl.
  destruct (digit_val c); [apply IH|reflexivity].
Qed.

Lemma length_string_append s r :
  String.length (String.append s r) = (String.length s + String.length r)%nat.
Proof. induction s as [|c s IH]; simpl; auto. Qed.

Lemma digit_char n : (n < 10)%nat -> digit_val (ascii_of_nat (48 + n)) = Some (Z.of_nat n).
Proof. intros H. do 10 (destruct n as [|n]; [reflexivity|]). lia. Qed.

Lemma nts_value f n a :
  (n < f)%nat ->
  decimal_value (nat_to_string_aux f n "") a
  = Some (a * 10 ^ Z.of_nat (String.length (nat_to_string_aux f n "")) + Z.of_nat n).
Proof.
  revert n a. induction f as [|f IH]; intros n a Hn; [lia|].
  pose proof (Nat.div_mod_eq n 10) as Hdm. pose proof (Nat.mod_upper_bound n 10 ltac:(lia)) as Hm.
  cbn [nat_to_string_aux]. destruct (Nat.ltb_spec n 10) as [Hlt|Hge].
  - rewrite Nat.mod_small by exact Hlt. cbn [decimal_value String.length].
    rewrite (digit_char n Hlt). cbn [decimal_value]. f_equal; lia.
  - assert (A : nat_to_string_aux f (n / 10) (String (ascii_of_nat (48 + n mod 10)) "")
                = String.append (nat_to_string_aux f (n / 10) "")
                                (String (ascii_of_nat (48 + n mod 10)) ""))
      by exact (nts_app f (n / 10) "" (String (ascii_of_nat (48 + n mod 10)) "")).
    rewrite A.
    rewrite decimal_value_app, IH by (apply Nat.Div0.div_lt_upper_bound; lia).
    cbn [decimal_value]. rewrite (digit_char _ Hm). cbn [decimal_value]. f_equal.
    rewrite length_string_append. cbn [String.length].
    rewrite Nat2Z.inj_add, Z.pow_add_r by lia.
    change (Z.of_nat 1) with 1. rewrite Z.pow_1_r.
    assert (Hz : Z.of_nat n = 10 * Z.of_nat (n / 10) + Z.of_nat (n mod 10)) by lia.
    rewrite Hz. ring.
Qed.

Lemma nts_head f n :
  (1 <= n < f)%nat -> exists c r, nat_to_string_aux f n "" = String c r /\ c <> "0"%char.
Proof.
  revert n. induction f as [|f IH]; intros n Hn; [lia|].
  cbn [nat_to_string_aux]. destruct (Nat.ltb_spec n 10) as [Hlt|Hge].
  - eexists _, _. split; [reflexivity|]. rewrite Nat.mod_small by exact Hlt.
    intros E. apply (f_equal nat_of_ascii) in E. rewrite nat_ascii_embedding in E by lia.
    change (nat_of_ascii "0"%char) with 48%nat in E. lia.
  - assert (A : nat_to_string_aux f (n / 10) (String (ascii_of_nat (48 + n mod 10)) "")
                = String.append (nat_to_string_aux f (n / 10) "")
                                (String (ascii_of_nat (48 + n mod 10)) ""))
      by exact (nts_app f (n / 10) "" (String (ascii_of_nat (48 + n mod 10)) "")).
    rewrite A.
    assert (Hd : (1 <= n / 10 < f)%nat).
    { pose proof (Nat.div_mod_eq n 10). pose proof (Nat.mod_upper_bound n 10 ltac:(lia)). split; lia. }
    destruct (IH (n / 10)%nat Hd) as (c & r & E & Hc). rewrite E. cbn [String.append].
    eexists _, _. split; [reflexivity|exact Hc].
Qed.

Lemma array_index_nat_to_string n :
  Z.of_nat n < 4294967295 -> array_index (nat_to_string n) = Some (Z.of_nat n).
Proof.
  intros Hn. destruct (Nat.eq_dec n 0%nat) as [->|Hn0]; [reflexivity|].
  destruct (nts_head (S n) n ltac:(lia)) as (c & r & E & Hc).
  pose proof (nts_value (S n) n 0 ltac:(lia)) as V.
  unfold nat_to_string. rewrite E. rewrite E in V. rewrite Z.mul_0_l, Z.add_0_l in V.
  unfold array_index. destruct (Ascii.eqb_spec c "0"%char) as [|_]; [contradiction|].
  rewrite V. destruct (Z.ltb_spec (Z.of_nat n) 4294967295); [reflexivity|lia].
Qed.

Lemma own_get_map {A B} (f : A -> B) (l : list (string * A)) k :
  own_get (map (fun p => (fst p, f (snd p))) l) k = option_map f (own_get l k).
Proof.
  unfold own_get. induction l as [|[k1 a] l IH]; simpl; auto.
  destruct (String.eqb k1 k); auto.
Qed.

Lemma hindex_of_map y zs : hindex_of y (map HNum zs) = index_of y zs.
Proof. induction zs as [|z zs IH]; simpl; [reflexivity|]. now rewrite IH. Qed.

Lemma index_of_h_run h l zs y :
  h !! l = Some (HArr (map HNum zs)) -> index_of_h (HRef l) y h = (Ok (index_of y zs), h).
Proof.
  intros Hl. unfold index_of_h. step (read_at _ _ _ Hl).
  exact (f_equal (fun z => (Ok z, h)) (hindex_of_map y zs)).
Qed.

Lemma index_of_bound y zs : 0 <= index_of y zs -> (Z.to_nat (index_of y zs) < length zs)%nat.
Proof.
  induction zs as [|z zs IH]; simpl; intros H; [lia|].
  destruct (z =? y); [simpl; lia|].
  destruct (Z.ltb_spec (index_of y zs) 0); [lia|]. specialize (IH ltac:(lia)). lia.
Qed.

Lemma js_prop_category d name :
  existsb (String.eqb name) object_proto_names = false ->
  js_prop (JObj (map (fun p => (fst p, zs_json (snd p))) (categories d))) name
  = match own_get (categories d) name with Some vs => zs_json vs | None => JUndef end.
Proof.
  intros Hp. unfold js_prop, js_get. rewrite (own_get_map zs_json).
  destruct (own_get (categories d) name); [reflexivity|].
  unfold proto_get. simpl proto_names. now rewrite Hp.
Qed.

(** [getCategoryValue] on the heap computes [Builders.getCategoryValue]. *)
Lemma getCategoryValue_h_run hb h d data name year :
  hb ⊆ h -> rep hb data (dataset_json d) ->
  existsb (String.eqb name) object_proto_names = false ->
  Z.of_nat (length (years d)) < 4294967295 ->
  getCategoryValue_h data name year h =
  (Ok (match getCategoryValue d name year with Some z => HNum z | None => HUndef end), h).
Proof.
  intros Hs Hd Hp Hy.
  destruct (get_rep hb h data _ "categories" Hd eq_refl Hs) as (cats & Ec & Hc).
  rewrite js_prop_categories in Hc.
  destruct (get_rep hb h cats _ name Hc eq_refl Hs) as (c & Ecc & Hcc).
  rewrite (js_prop_category d name Hp) in Hcc.
  unfold getCategoryValue_h. step Ec. step Ecc.
  unfold getCategoryValue. destruct (own_get (categories d) name) as [vals|] eqn:Eo.
  - destruct (rep_zs _ _ _ Hcc) as (lv & -> & Hlv).
    cbn [htruthy negb].
    destruct (get_rep hb h data _ "years" Hd eq_refl Hs) as (xy & Ey & Hxy).
    rewrite js_prop_years in Hxy.
    destruct (rep_zs _ _ _ Hxy) as (ly & -> & Hly).
    step Ey. step (index_of_h_run h ly (years d) year (lookup_weaken _ _ _ _ Hly Hs)).
    cbv zeta. destruct (index_of year (years d) >=? 0) eqn:Ei; [|reflexivity].
    step Ec. step Ecc.
    assert (Hb : Z.of_nat (Z.to_nat (index_of year (years d))) < 4294967295).
    { apply Z.geb_le in Ei. pose proof (index_of_bound year (years d) ltac:(lia)). lia. }
    rewrite (get_arr h lv (map HNum vals) _ _ (lookup_weaken _ _ _ _ Hlv Hs)
               (array_index_nat_to_string _ Hb)).
    rewrite Nat2Z.id, nth_error_map. destruct (nth_error vals _); reflexivity.
  - apply rep_inv in Hcc. simpl in Hcc. subst c. cbn [htruthy negb].
    rewrite Hp. reflexivity.
Qed.

Lemma push_if_app v y text color acc :
  push_if v y text color acc = acc ++ push_if v y text color [].
Proof.
  destruct v as [z|]; simpl; [destruct (0 <? z)|]; simpl; now rewrite ?app_nil_r.
Qed.

Lemma annotation_step_run hb h d data la acc name year text color :
  hb ⊆ h -> hb !! la = None -> h !! la = Some (HArr acc) ->
  rep hb data (dataset_json d) -> existsb (String.eqb name) object_proto_names = false ->
  Z.of_nat (length (years d)) < 4294967295 ->
  exists new h', annotation_step data la name year text color h = (Ok tt, h') /\
    h' !! la = Some (HArr (acc ++ new)) /\ delete la h ⊆ delete la h' /\ hb ⊆ h' /\
    Forall2 (rep (delete la h')) new
            (map annotation_json (push_if (getCategoryValue d name year) year text color [])).
Proof.
  intros Hs Hb Hla Hd Hp Hy. unfold annotation_step.
  step (getCategoryValue_h_run hb h d data name year Hs Hd Hp Hy).
  destruct (getCategoryValue d name year) as [z|] eqn:Ev.
  2: { assert (G : greater_than_zero HUndef h = (Ok false, h)) by reflexivity. step G.
       exists [], h. rewrite app_nil_r. split; [reflexivity|]. split; [exact Hla|].
       split; [reflexivity|]. split; [exact Hs|constructor]. }
  assert (G : greater_than_zero (HNum z) h = (Ok (0 <? z), h)) by reflexivity. step G.
  unfold push_if. destruct (0 <? z) eqn:Ez.
  2: { exists [], h. rewrite app_nil_r. split; [reflexivity|]. split; [exact Hla|].
       split; [reflexivity|]. split; [exact Hs|constructor]. }
  alloc_step lf h1. alloc_step la2 h2.
  assert (Hl1 : h1 !! la = Some (HArr acc)) by (apply alloc_lookup; exact Hla).
  assert (Hl2 : h2 !! la = Some (HArr acc)) by (apply alloc_lookup; exact Hl1).
  assert (N1 : la <> lf) by (apply not_eq_sym, (fresh_ne h la _ Hla)).
  assert (N2 : la <> la2) by (apply not_eq_sym, (fresh_ne h1 la _ Hl1)).
  assert (S1 : h ⊆ h1) by apply alloc_subseteq.
  assert (S2 : h1 ⊆ h2) by apply alloc_subseteq.
  unfold push. step (elements_at _ _ _ Hl2). unfold write.
  exists [HRef la2], (<[la := HArr (acc ++ [HRef la2])]> h2).
  split; [reflexivity|].
  split; [apply lookup_insert_eq|].
  assert (Hb2 : hb ⊆ h2) by (etransitivity; [exact Hs|]; etransitivity; eauto).
  rewrite delete_insert_eq.
  split; [apply delete_mono; etransitivity; eauto|].
  split; [now apply insert_subseteq_r|].
  set (hd := delete la h2).
  assert (L1 : hd !! lf = h2 !! lf) by (apply lookup_delete_ne; exact N1).
  assert (L2 : hd !! la2 = h2 !! la2) by (apply lookup_delete_ne; exact N2).
  assert (E1 : h2 !! lf = Some (HObj [("size", HNum 11); ("color", HStr "#1a202c");
                   ("family", HStr "-apple-system, BlinkMacSystemFont, sans-serif")])).
  { eapply lookup_weaken; [|exact S2]. apply lookup_insert_eq. }
  rewrite E1 in L1. unfold h2 in L2. rewrite lookup_insert_eq in L2.
  simpl app. cbn [map]. constructor; [|constructor].
  apply (rep_obj hd la2 _ _ L2).
  repeat (apply List.Forall2_cons; [split; [reflexivity|]|]); [..|apply List.Forall2_nil];
    try (exists 0%nat; reflexivity).
  apply (rep_obj hd lf _ _ L1).
  repeat (apply List.Forall2_cons; [split; [reflexivity|exists 0%nat; reflexivity]|]).
  apply List.Forall2_nil.
Qed.

(** [createDynamicAnnotations] on the heap computes
    [Builders.createDynamicAnnotations]. *)
Lemma createDynamicAnnotations_h_refines d data h0 :
  rep h0 data (dataset_json d) -> Z.of_nat (length (years d)) < 4294967295 ->
  exists a h1, createDynamicAnnotations_h data h0 = (Ok a, h1) /\ h0 ⊆ h1 /\
    rep h1 (HRef a) (JArr (map annotation_json (createDynamicAnnotations d))).
Proof.
  intros Hd Hy. unfold createDynamicAnnotations_h.
  alloc_step la hA.
  assert (Ht0 : h0 !! la = None) by apply fresh_lookup.
  assert (SA : h0 ⊆ hA) by apply alloc_subseteq.
  assert (HlaA : hA !! la = Some (HArr [])) by apply lookup_insert_eq.
  destruct (annotation_step_run h0 hA d data la [] "Machine Learning & AI" 2024
              "LLMs<br>Emerge" "#FF6B6B" SA Ht0 HlaA Hd eq_refl Hy)
    as (n1 & h1 & E1 & L1 & D1 & S1 & F1).
  step E1.
  destruct (annotation_step_run h0 h1 d data la _ "Social Sciences & Demographics" 2019
              "Census<br>Focus" "#ed8936" S1 Ht0 L1 Hd eq_refl Hy)
    as (n2 & h2 & E2 & L2 & D2 & S2 & F2).
  step E2.
  destruct (annotation_step_run h0 h2 d data la _ "Pandemic & Public Health" 2020
              "COVID-19<br>Impact" "#48bb78" S2 Ht0 L2 Hd eq_refl Hy)
    as (n3 & h3 & E3 & L3 & D3 & S3 & F3).
  step E3.
  exists la, h3. split; [reflexivity|]. split; [exact S3|].
  apply (rep_arr h3 la _ _ L3).
  unfold createDynamicAnnotations. cbv zeta.
  rewrite (push_if_app _ _ _ _ (push_if _ _ _ _ (push_if _ _ _ _ []))).
  rewrite (push_if_app _ _ _ _ (push_if _ _ _ _ [])).
  rewrite !map_app. cbn [app].
  assert (M3 : delete la h3 ⊆ h3) by apply delete_subseteq.
  apply Forall2_app; [apply Forall2_app|].
  - eapply Forall2_impl; [exact F1|]. intros v j Hv.
    eapply rep_heap_mono; [|exact Hv]. etransitivity; [exact D2|].
    etransitivity; [exact D3|exact M3].
  - eapply Forall2_impl; [exact F2|]. intros v j Hv.
    eapply rep_heap_mono; [|exact Hv]. etransitivity; [exact D3|exact M3].
  - eapply Forall2_impl; [exact F3|]. intros v j Hv.
    eapply rep_heap_mono; [exact M3|exact Hv].
Qed.

(** C6: [createChartTraces] and [createDynamicAnnotations] are deterministic
    and keep no state between calls.  Run twice in a row on the heap, from
    any heap holding a dataset [d] (with fewer than 2^32 - 1 years), each
    call succeeds, and both results read, in the final heap, as the same
    value: the one the pure [Builders] functions compute from [d] alone.
    The model has no I/O effect: a builder is a function of the heap. *)
Theorem builders_deterministic (d : Dataset) (data : hval) (h0 : heap)
    (Hd : rep h0 data (dataset_json d))
    (Hy : Z.of_nat (length (years d)) < 4294967295) :
  (exists t1 h1 t2 h2,
      createChartTraces_h data h0 = (Ok t1, h1) /\
      createChartTraces_h data h1 = (Ok t2, h2) /\
      rep h2 (HRef t1) (JArr (map trace_json (createChartTraces d))) /\
      rep h2 (HRef t2) (JArr (map trace_json (createChartTraces d)))) /\
  (exists a1 h1 a2 h2,
      createDynamicAnnotations_h data h0 = (Ok a1, h1) /\
      createDynamicAnnotations_h data h1 = (Ok a2, h2) /\
      rep h2 (HRef a1) (JArr (map annotation_json (createDynamicAnnotations d))) /\
      rep h2 (HRef a2) (JArr (map annotation_json (createDynamicAnnotations d)))).
Proof.
  split.
  - destruct (createChartTraces_h_refines d data h0 Hd) as (t1 & h1 & E1 & S1 & R1).
    destruct (createChartTraces_h_refines d data h1 (rep_heap_mono _ _ _ _ S1 Hd))
      as (t2 & h2 & E2 & S2 & R2).
    exists t1, h1, t2, h2. repeat split; auto. eapply rep_heap_mono; eauto.
  - destruct (createDynamicAnnotations_h_refines d data h0 Hd Hy) as (a1 & h1 & E1 & S1 & R1).
    destruct (createDynamicAnnotations_h_refines d data h1 (rep_heap_mono _ _ _ _ S1 Hd) Hy)
      as (a2 & h2 & E2 & S2 & R2).
    exists a1, h1, a2, h2. repeat split; auto. eapply rep_heap_mono; eauto.
Qed.

Lemma builders_deterministic_witness :
  rep heap_D data_D (dataset_json D_heap) /\
  Z.of_nat (length (years D_heap)) < 4294967295 /\
  (exists t1 h1 t2 h2,
      createChartTraces_h data_D heap_D = (Ok t1, h1) /\
      createChartTraces_h data_D h1 = (Ok t2, h2) /\
      rep h2 (HRef t1) (JArr (map trace_json (createChartTraces D_heap))) /\
      rep h2 (HRef t2) (JArr (map trace_json (createChartTraces D_heap)))).
Proof.
  assert (Hd : rep heap_D data_D (dataset_json D_heap)) by (exists 5%nat; vm_compute; reflexivity).
  assert (Hy : Z.of_nat (length (years D_heap)) < 4294967295) by (vm_compute; reflexivity).
  split; [exact Hd|]. split; [exact Hy|].
  exact (proj1 (builders_deterministic D_heap data_D heap_D Hd Hy)).
Defined.

(* ================================================================= *)
(** ** Further properties of the loader, the layout, the debounced
       resize handler and [initializeApp] *)

(** The value [load_body] accepts is an object with own [years] (an
    array) and [categories]: every other value reads [years] as
    [undefined]. *)
Lemma load_body_object r d :
  load_body r = inl d ->
  exists ps ys cs, d = JObj ps /\ own_get ps "years" = Some (JArr ys) /\
                   own_get ps "categories" = Some cs.
Proof.
  unfold load_body. destruct r as [|ok status text body]; [discriminate|].
  destruct ok; [|discriminate]. destruct body as [v|]; [|discriminate]. simpl.
  destruct (nullish v) eqn:Hn; [discriminate|].
  destruct (truthy (prop v "years")) eqn:Hy; [|discriminate].
  destruct (truthy (prop v "categories")) eqn:Hc; [|discriminate].
  destruct (is_array (prop v "years")) eqn:Ha; [|discriminate]. simpl.
  destruct (first_inconsistent _ _); [discriminate|]. intros E. injection E as <-.
  destruct v; try discriminate.
  exists ps. unfold prop, js_get in Hy, Hc, Ha.
  destruct (own_get ps "years") as [y|]; [|discriminate].
  destruct (own_get ps "categories") as [c|]; [|discriminate].
  destruct y; try discriminate. eauto.
Qed.

Lemma load_body_truthy r d : load_body r = inl d -> truthy d = true.
Proof. intros H. destruct (load_body_object r d H) as (ps & _ & _ & -> & _). reflexivity. Qed.


(** X2: every value [loadTopicData] returns is a JSON object (never an
    array, string, number or boolean) with own properties [years], an
    array, and [categories]. *)
Theorem loadTopicData_returns_object (r : fetch_outcome) (w : World) (d : jvalue)
    (H : fst (loadTopicData r w) = Some d) :
  exists ps ys cs, d = JObj ps /\ own_get ps "years" = Some (JArr ys) /\
                   own_get ps "categories" = Some cs.
Proof.
  unfold loadTopicData in H. destruct (load_body r) as [d'|e] eqn:E; simpl in H;
    [|discriminate]. injection H as <-. exact (load_body_object r d' E).
Qed.

Lemma loadTopicData_returns_object_witness :
  fst (loadTopicData (body_json (dataset_json D_abc)) initialWorld) = Some (dataset_json D_abc) /\
  exists ps ys cs, dataset_json D_abc = JObj ps /\ own_get ps "years" = Some (JArr ys) /\
                   own_get ps "categories" = Some cs.
Proof.
  assert (H : fst (loadTopicData (body_json (dataset_json D_abc)) initialWorld)
              = Some (dataset_json D_abc)) by reflexivity.
  split; [exact H|].
  exact (loadTopicData_returns_object _ _ _ H).
Defined.

(** X3: [initializeApp] renders exactly when loading succeeds, with the
    loaded value.  When loading fails it never calls [renderChart], and
    the screen ends with 'Application failed to initialize' in place of
    the loader's own message (which stays in [AppState.error]). *)
Theorem initializeApp_cases (render : jvalue -> World -> World) (r : fetch_outcome) (w : World) :
  match fst (loadTopicData r w) with
  | Some d =>
      initializeApp render r w
      = (app (render d (snd (loadTopicData r w))),
         PView (chart_view (render d (snd (loadTopicData r w)))))
  | None =>
      initializeApp render r w
      = (app (snd (loadTopicData r w)), PMessage "Application failed to initialize") /\
      forall render' : jvalue -> World -> World,
        initializeApp render' r w = initializeApp render r w
  end.
Proof.
  unfold initializeApp. destruct (loadTopicData r w) as [[d|] w1] eqn:E; simpl.
  - assert (Hd : load_body r = inl d).
    { unfold loadTopicData in E. destruct (load_body r); simpl in E; [|discriminate].
      now injection E as -> _. }
    now rewrite (load_body_truthy r d Hd).
  - split; [reflexivity|]. intros render'. reflexivity.
Qed.








Lemma advance_pot t s :
  exists l, calls (advance t s) = calls s ++ l /\ only_resizes l /\
            (length l + pending (advance t s) <= pending s)%nat.
Proof.
  unfold advance, pending. destruct (timeout s) as [due|].
  - destruct (due <=? t).
    + unfold resize_callback. simpl. destruct (chart s); simpl.
      * exists [PlotsResize "evolution-chart"]. refine (conj _ (conj _ _)); [reflexivity|repeat constructor|simpl; lia].
      * exists []. refine (conj _ (conj _ _)); [simpl; now rewrite app_nil_r|apply List.Forall_nil|simpl; lia].
    + exists []. refine (conj _ (conj _ _)); [simpl; now rewrite app_nil_r|constructor|simpl; lia].
  - exists []. refine (conj _ (conj _ _)); [simpl; now rewrite app_nil_r|constructor|simpl; lia].
Qed.

Lemma on_resize_pot t s :
  exists l, calls (on_resize t s) = calls s ++ l /\ only_resizes l /\
            (length l + pending (on_resize t s) <= 1 + pending s)%nat.
Proof.
  destruct (advance_pot t s) as (l & E & F & P).
  unfold on_resize. exists l.
  destruct (listening (advance t s)); simpl; refine (conj _ (conj _ _)); auto; unfold pending in *; simpl; lia.
Qed.

Lemma run_events_pot ts s :
  exists l, calls (run_events ts s) = calls s ++ l /\ only_resizes l /\
            (length l + pending (run_events ts s) <= length ts + pending s)%nat.
Proof.
  unfold run_events. revert s. induction ts as [|t r IH]; intros s; simpl.
  - exists []. refine (conj _ (conj _ _)); [now rewrite app_nil_r|constructor|simpl; lia].
  - destruct (on_resize_pot t s) as (l1 & E1 & F1 & P1).
    destruct (IH (on_resize t s)) as (l2 & E2 & F2 & P2).
    exists (l1 ++ l2). refine (conj _ (conj _ _)).
    + rewrite E2, E1. now rewrite app_assoc.
    + now apply Forall_app.
    + rewrite length_app. lia.
Qed.

Lemma repeat_snoc {A} (x : A) n : repeat x n ++ [x] = repeat x (S n).
Proof. induction n as [|n IH]; simpl; [reflexivity|now rewrite IH]. Qed.

Lemma spaced_loop prev ts s :
  spaced prev ts = true -> timeout s = Some (prev + wait) ->
  listening s = true -> chart s = true ->
  timeout (run_events ts s) = Some (List.last ts prev + wait) /\
  listening (run_events ts s) = true /\ chart (run_events ts s) = true /\
  calls (run_events ts s) = calls s ++ repeat (PlotsResize "evolution-chart") (length ts).
Proof.
  unfold run_events. revert prev s. induction ts as [|t r IH]; intros prev s Hs Ht Hl Hc.
  - simpl. rewrite app_nil_r. auto.
  - simpl in Hs. apply andb_true_iff in Hs as [H1 Hr]. apply Z.ltb_lt in H1.
    cbn [fold_left].
    assert (Eo : on_resize t s = mkRState t (Some (t + wait)) true true
                                   (calls s ++ [PlotsResize "evolution-chart"])).
    { unfold on_resize, advance. rewrite Ht.
      destruct (Z.leb_spec (prev + wait) t); [|lia].
      unfold resize_callback. simpl. rewrite Hc. simpl. now rewrite Hl. }
    rewrite Eo, last_cons_default.
    destruct (IH t (mkRState t (Some (t + wait)) true true
                      (calls s ++ [PlotsResize "evolution-chart"])) Hr eq_refl eq_refl eq_refl)
      as (A & B & C & D).
    refine (conj A (conj B (conj C _))). rewrite D. simpl. rewrite <- app_assoc. reflexivity.
Qed.

(** X5: with the resize listener that [renderChart] installs, each
    [resize] event leads to at most one [Plotly.Plots.resize] call: after
    any sequence of events and any wait, the calls added after
    [renderChart] are resizes and there are no more of them than events. *)
Theorem debounce_at_most_one_per_event (d : Dataset) (s : RState) (ts : list Z) (t : Z)
    (Hl : listening s = false) (Ht : timeout s = None) :
  exists l, calls (advance t (run_events ts (renderChart d s)))
              = calls (renderChart d s) ++ l /\
            only_resizes l /\ (length l <= length ts)%nat.
Proof.
  destruct (run_events_pot ts (renderChart d s)) as (l1 & E1 & F1 & P1).
  destruct (advance_pot t (run_events ts (renderChart d s))) as (l2 & E2 & F2 & P2).
  assert (P0 : pending (renderChart d s) = 0%nat) by (unfold pending; simpl; now rewrite Ht).
  exists (l1 ++ l2). refine (conj _ (conj _ _)).
  - rewrite E2, E1. now rewrite app_assoc.
  - now apply Forall_app.
  - rewrite length_app. lia.
Qed.

Lemma debounce_at_most_one_per_event_witness :
  listening initialRState = false /\ timeout initialRState = None /\
  exists l, calls (advance 1000 (run_events [0; 100; 500] (renderChart D_abc initialRState)))
              = calls (renderChart D_abc initialRState) ++ l /\
            only_resizes l /\ (length l <= 3)%nat.
Proof.
  split; [reflexivity|]. split; [reflexivity|].
  exact (debounce_at_most_one_per_event D_abc initialRState [0; 100; 500] 1000
           eq_refl eq_refl).
Defined.

(** X6: resize events spaced more than 250 ms apart are not merged: each
    one's timer fires before the next event, so [n] such events after
    [renderChart], followed by a 250 ms wait, give exactly [n] calls
    [Plotly.Plots.resize('evolution-chart')]. *)
Theorem debounce_spaced_events (d : Dataset) (s : RState) (t0 : Z) (ts : list Z)
    (Hl : listening s = false) (Ht : timeout s = None) (Hs : spaced t0 ts = true) :
  calls (advance (List.last (t0 :: ts) t0 + wait) (run_events (t0 :: ts) (renderChart d s)))
    = calls (renderChart d s) ++ repeat (PlotsResize "evolution-chart") (S (length ts)).
Proof.
  assert (E0 : on_resize t0 (renderChart d s)
               = mkRState t0 (Some (t0 + wait)) true true (calls (renderChart d s))).
  { unfold on_resize, advance, renderChart. simpl. rewrite Ht. reflexivity. }
  change (run_events (t0 :: ts) (renderChart d s))
    with (run_events ts (on_resize t0 (renderChart d s))).
  rewrite E0, last_cons_default.
  destruct (spaced_loop t0 ts (mkRState t0 (Some (t0 + wait)) true true (calls (renderChart d s)))
              Hs eq_refl eq_refl eq_refl) as (A & B & C & D).
  unfold advance at 1. rewrite A, Z.leb_refl.
  unfold resize_callback. cbn [chart calls]. rewrite C. cbn [calls].
  rewrite D, <- app_assoc, repeat_snoc.
  reflexivity.
Qed.

Lemma debounce_spaced_events_witness :
  listening initialRState = false /\ timeout initialRState = None /\
  spaced 0 [300; 600] = true /\
  calls (advance (List.last [0; 300; 600] 0 + wait)
                 (run_events [0; 300; 600] (renderChart D_abc initialRState)))
    = calls (renderChart D_abc initialRState) ++ repeat (PlotsResize "evolution-chart") 3.
Proof.
  split; [reflexivity|]. split; [reflexivity|]. split; [reflexivity|].
  exact (debounce_spaced_events D_abc initialRState 0 [300; 600] eq_refl eq_refl eq_refl).
Defined.

Lemma index_of_found y l :
  0 <= index_of y l ->
  nth_error l (Z.to_nat (index_of y l)) = Some y /\
  (forall j, (j < Z.to_nat (index_of y l))%nat -> nth_error l j <> Some y).
Proof.
  rewrite index_of_position. revert y. induction l as [|x r IH]; intros y; simpl; [lia|].
  destruct (Z.eqb_spec x y) as [->|Hne].
  - intros _. split; [reflexivity|]. intros j Hj. lia.
  - destruct (position y r) as [i|] eqn:Ep; simpl; [|lia].
    intros _. specialize (IH y). rewrite Ep in IH.
    destruct (IH ltac:(lia)) as [A B]. rewrite Nat2Z.id in A, B.
    rewrite Nat2Z.id. split; [exact A|].
    intros [|j] Hj; simpl; [congruence|]. apply B. lia.
Qed.

Lemma index_of_first y l i :
  nth_error l i = Some y -> (forall j, (j < i)%nat -> nth_error l j <> Some y) ->
  index_of y l = Z.of_nat i.
Proof.
  rewrite index_of_position. revert i. induction l as [|x r IH]; intros i Hi Hb.
  - destruct i; discriminate.
  - simpl. destruct (Z.eqb_spec x y) as [->|Hne].
    + destruct i as [|i]; [reflexivity|]. exfalso. apply (Hb 0%nat); [lia|reflexivity].
    + destruct i as [|i]; simpl in Hi; [congruence|].
      specialize (IH i Hi (fun j Hj => Hb (S j) ltac:(lia))).
      destruct (position y r); simpl in *; lia.
Qed.

Lemma index_of_absent y l : ~ In y l -> index_of y l = -1.
Proof.
  induction l as [|x r IH]; simpl; intros Hn; [reflexivity|].
  destruct (Z.eqb_spec x y) as [->|Hne]; [tauto|].
  rewrite IH by tauto. reflexivity.
Qed.

Lemma index_of_ge y l : -1 <= index_of y l.
Proof.
  rewrite index_of_position. destruct (position y l); lia.
Qed.

(** X7: [data.years.indexOf(year)] as [getCategoryValue] uses it: it is
    -1 exactly when the year is not in the array; otherwise it is the
    position of the first occurrence of the year. *)
Theorem index_of_indexOf (y : Z) (l : list Z) :
  (index_of y l = -1 <-> ~ In y l) /\
  (forall i, index_of y l = Z.of_nat i <->
             nth_error l i = Some y /\ (forall j, (j < i)%nat -> nth_error l j <> Some y)).
Proof.
  split.
  - split; [|apply index_of_absent].
    intros Hm Hin. rewrite index_of_position in Hm.
    destruct (position y l) as [i|] eqn:Ep; [lia|].
    clear Hm. induction l as [|x r IH]; [exact Hin|].
    simpl in Ep. destruct (Z.eqb_spec x y) as [->|Hne]; [discriminate|].
    destruct (position y r); [discriminate|].
    destruct Hin as [->|Hin]; [congruence|]. exact (IH eq_refl Hin).
  - intros i. split.
    + intros E. destruct (index_of_found y l ltac:(lia)) as [A B].
      rewrite E, Nat2Z.id in A, B. auto.
    + intros [A B]. now apply index_of_first.
Qed.

(** X8: [getCategoryValue(categoryName, year)] is 0 when the year is not
    in [data.years], and 0 when [data.categories] has no such key and the
    name is not a member of [Object.prototype]; for an own category and a
    year present, it is the category's entry at the year's first
    position, [undefined] when the category's array is shorter. *)
Theorem getCategoryValue_cases (d : Dataset) (c : string) (y : Z) :
  (~ In y (years d) -> getCategoryValue d c y = Some 0) /\
  (own_get (categories d) c = None ->
   existsb (String.eqb c) object_proto_names = false -> getCategoryValue d c y = Some 0) /\
  (forall vs i, own_get (categories d) c = Some vs ->
     nth_error (years d) i = Some y ->
     (forall j, (j < i)%nat -> nth_error (years d) j <> Some y) ->
     getCategoryValue d c y = nth_error vs i).
Proof.
  unfold getCategoryValue. split; [|split].
  - intros Hn. rewrite (index_of_absent y (years d) Hn).
    destruct (own_get (categories d) c); [reflexivity|].
    destruct (existsb (String.eqb c) object_proto_names); reflexivity.
  - intros E Hp. rewrite E, Hp. reflexivity.
  - intros vs i E Hi Hb. rewrite E, (index_of_first y (years d) i Hi Hb).
    assert (Hge : (Z.of_nat i >=? 0) = true) by (apply Z.geb_le; lia).
    rewrite Hge, Nat2Z.id. reflexivity.
Qed.

Lemma push_if_map v y text color acc :
  map (fun a => (an_x a, an_text a, an_color a)) (push_if v y text color acc)
  = map (fun a => (an_x a, an_text a, an_color a)) acc
    ++ (if positive_value v then [(y, text, color)] else []).
Proof.
  unfold push_if, positive_value. destruct v as [z|]; [|now rewrite app_nil_r].
  destruct (0 <? z); [now rewrite map_app|now rewrite app_nil_r].
Qed.

Lemma push_if_pos v y text color acc :
  Forall (fun a => 0 < an_y a) acc -> Forall (fun a => 0 < an_y a) (push_if v y text color acc).
Proof.
  intros H. unfold push_if. destruct v as [z|]; [|exact H].
  destruct (Z.ltb_spec 0 z); [|exact H].
  apply Forall_app; split; [exact H|]. constructor; [exact H0|constructor].
Qed.

(** X9: [createDynamicAnnotations] returns at most the three fixed
    annotations, each at most once and always in the order 2024
    ("LLMs<br>Emerge"), 2019 ("Census<br>Focus"), 2020 ("COVID-19<br>Impact"),
    each with a value greater than zero; a dataset with none of the three
    categories gets no annotation. *)
Theorem createDynamicAnnotations_shape (d : Dataset) :
  (exists b1 b2 b3 : bool,
     map (fun a => (an_x a, an_text a, an_color a)) (createDynamicAnnotations d)
     = (if b1 then [(2024, "LLMs<br>Emerge", "#FF6B6B")] else []) ++
       (if b2 then [(2019, "Census<br>Focus", "#ed8936")] else []) ++
       (if b3 then [(2020, "COVID-19<br>Impact", "#48bb78")] else [])) /\
  Forall (fun a => 0 < an_y a) (createDynamicAnnotations d) /\
  (own_get (categories d) "Machine Learning & AI" = None ->
   own_get (categories d) "Social Sciences & Demographics" = None ->
   own_get (categories d) "Pandemic & Public Health" = None ->
   createDynamicAnnotations d = []).
Proof.
  unfold createDynamicAnnotations. split; [|split].
  - exists (positive_value (getCategoryValue d "Machine Learning & AI" 2024)),
      (positive_value (getCategoryValue d "Social Sciences & Demographics" 2019)),
      (positive_value (getCategoryValue d "Pandemic & Public Health" 2020)).
    rewrite !push_if_map. cbn [map]. rewrite app_nil_l, <- app_assoc. reflexivity.
  - repeat apply push_if_pos. constructor.
  - intros E1 E2 E3. unfold getCategoryValue. rewrite E1, E2, E3. reflexivity.
Qed.

(** X10: every trace [createChartTraces] builds has [data.years] as its
    x values, and there is one trace per own property of
    [data.categories]: no categories, no traces. *)
Theorem createChartTraces_x_axis (d : Dataset) :
  Forall (fun t => tr_x t = years d) (createChartTraces d) /\
  length (createChartTraces d) = length (categories d) /\
  (createChartTraces d = [] <-> categories d = []).
Proof.
  split; [|split].
  - unfold createChartTraces. generalize 0%nat. induction (category_totals d) as [|c r IH];
      intros i; simpl; constructor; auto.
  - apply length_createChartTraces.
  - pose proof (length_createChartTraces d) as L. split; intros E.
    + rewrite E in L. destruct (categories d); [reflexivity|discriminate].
    + rewrite E in L. destruct (createChartTraces d); [reflexivity|discriminate].
Qed.

(** X11: [createChartTraces] does not copy [data.years]: on the heap,
    [data.years] is an array object holding the years, and the [x] field
    of every trace object that [createChartTraces] pushes is a reference
    to that same array.  There is one trace object per category. *)
Theorem createChartTraces_h_shares_years (d : Dataset) (data : hval) (h0 : heap)
    (Hd : rep h0 data (dataset_json d)) :
  exists ly t h1 trs,
    HeapModel.get data "years" h0 = (Ok (HRef ly), h0) /\
    h0 !! ly = Some (HArr (map HNum (years d))) /\
    createChartTraces_h data h0 = (Ok t, h1) /\ h1 !! t = Some (HArr trs) /\
    h1 !! ly = Some (HArr (map HNum (years d))) /\
    length trs = length (categories d) /\
    Forall (fun tr => exists l qs, tr = HRef l /\ h1 !! l = Some (HObj (("x", HRef ly) :: qs))) trs.
Proof.
  destruct (createChartTraces_h_run d data h0 Hd) as (t & h1 & new & E & S & Ht & R & Hal).
  destruct (get_rep h0 h0 data _ "years" Hd eq_refl ltac:(reflexivity)) as (xy & Ey & Hy).
  rewrite js_prop_years in Hy. destruct (rep_zs _ _ _ Hy) as (ly & -> & Hly).
  exists ly, t, h1, new. split; [exact Ey|]. split; [exact Hly|].
  split; [exact E|]. split; [exact Ht|]. split; [eapply lookup_weaken; eauto|]. split.
  - apply rep_inv in R. destruct R as (l & vs & El & Hl & Hf). injection El as <-.
    rewrite Ht in Hl. injection Hl as <-. apply Forall2_length in Hf.
    rewrite Hf, length_map. apply length_createChartTraces.
  - eapply Forall_impl; [exact Hal|]. intros tr (l & xy & qs & -> & Hl & Ey').
    rewrite Ey in Ey'. injection Ey' as <-. exists l, qs. auto.
Qed.

Lemma createChartTraces_h_shares_years_witness :
  rep heap_D data_D (dataset_json D_heap) /\
  exists ly t h1 trs,
    HeapModel.get data_D "years" heap_D = (Ok (HRef ly), heap_D) /\
    heap_D !! ly = Some (HArr (map HNum (years D_heap))) /\
    createChartTraces_h data_D heap_D = (Ok t, h1) /\ h1 !! t = Some (HArr trs) /\
    h1 !! ly = Some (HArr (map HNum (years D_heap))) /\
    length trs = length (categories D_heap) /\
    Forall (fun tr => exists l qs, tr = HRef l /\ h1 !! l = Some (HObj (("x", HRef ly) :: qs))) trs.
Proof.
  assert (Hd : rep heap_D data_D (dataset_json D_heap)) by (exists 5%nat; vm_compute; reflexivity).
  split; [exact Hd|].
  exact (createChartTraces_h_shares_years D_heap data_D heap_D Hd).
Defined.
